(** * python_stat_compiler: the benchmark summary tool, embedded and verified

    A shallow embedding of [Additionnals/python_stat_compiler.py]: the byte
    formatter [fmt_bytes], the record loader [load_rows], the parameter
    resolver [get_opt], the metric deriver [derive], the two renderers
    [write_markdown] and [write_csv], and [main].

    Python values are modelled as the program sees them after [json.load]:
    integers are unbounded ([Z]), floats are IEEE binary64 values
    ([spec_float] with [prec = 53] and [emax = 1024]), objects are
    association lists in insertion order, and a raised exception is an
    explicit [Raise] result. *)

From Stdlib Require Import ZArith List String Ascii Bool Lia.
From Stdlib Require Import Permutation Sorted DecimalString.
From Stdlib Require Import Floats.SpecFloat.
From Stdlib Require Import QArith.
Import ListNotations.

Set Warnings "-register-all".

Local Open Scope list_scope.
Local Open Scope string_scope.
Local Open Scope Z_scope.

(* ================================================================== *)
(** * Exceptions and the error monad *)

(** The exception classes the program can meet. *)
Inductive exn : Type :=
| TypeError
| ValueError
| OverflowError
| AttributeError
| ZeroDivisionError
| OSError
| UnicodeEncodeError
| SystemExit (code : Z).

(** A computation either returns a value or raises an exception. *)
Inductive result (A : Type) : Type :=
| Ok (a : A)
| Raise (e : exn).

Arguments Ok {A} a.
Arguments Raise {A} e.

Definition bind {A B : Type} (c : result A) (k : A -> result B) : result B :=
  match c with
  | Ok a => k a
  | Raise e => Raise e
  end.

Notation "x <- c ;; k" := (bind c (fun x => k))
  (at level 61, c at next level, right associativity).

(** Splits a hypothesis [x <- c ;; k = Ok b] into [c = Ok a] and [k a = Ok b],
    as often as possible. *)
Ltac bind_inv H :=
  repeat match type of H with
         | bind ?c _ = Ok _ =>
             let a := fresh "a" in
             let E := fresh "E" in
             destruct c as [a|] eqn:E; [cbn [bind] in H | discriminate H]
         end.

(** [mapM f l] runs [f] on the items of [l] from left to right and stops at the
    first exception, as a list comprehension does. *)
Fixpoint mapM {A B : Type} (f : A -> result B) (l : list A) : result (list B) :=
  match l with
  | [] => Ok []
  | a :: l' => b <- f a ;; bs <- mapM f l' ;; Ok (b :: bs)
  end.

(* ================================================================== *)
(** * JSON values *)

(** What [json.load] returns.  An object keeps its items in insertion order;
    a well-formed object has pairwise distinct keys. *)
Inductive json : Type :=
| JNull
| JBool (b : bool)
| JInt (z : Z)
| JFloat (f : spec_float)
| JStr (s : string)
| JList (l : list json)
| JDict (d : list (string * json)).

Definition dict := list (string * json).

(** [key in d] and [d[key]]: the first item whose key is [key]. *)
Fixpoint dict_lookup (key : string) (d : dict) : option json :=
  match d with
  | [] => None
  | (k, v) :: d' => if String.eqb key k then Some v else dict_lookup key d'
  end.

(** [d.get(key, default)]. *)
Definition dict_get (d : dict) (key : string) (default : json) : json :=
  match dict_lookup key d with
  | Some v => v
  | None => default
  end.

(** [d.values()]. *)
Definition dict_values (d : dict) : list json := map snd d.

(** The object [d] with every item under [key] dropped. *)
Definition dict_remove (key : string) (d : dict) : dict :=
  filter (fun kv => negb (String.eqb key (fst kv))) d.

(* ================================================================== *)
(** * Numbers: unbounded integers and binary64 floats *)

Definition prec : Z := 53.
Definition emax : Z := 1024.

Definition float := spec_float.

Definition fdiv : float -> float -> float := SFdiv prec emax.
Definition fadd : float -> float -> float := SFadd prec emax.

(** The binary64 value nearest to [m * 2^e] (ties to even). *)
Definition float_of_dyadic (m e : Z) : float := binary_normalize prec emax m e false.

(** The rational number a finite float stands for. *)
Definition float_to_Q (f : float) : option Q :=
  match f with
  | S754_zero _ => Some 0%Q
  | S754_finite s m e => Some (inject_Z (if s then Zneg m else Zpos m) * 2 ^ e)%Q
  | _ => None
  end.

(** [f] is finite and its value is exactly [q]. *)
Definition float_is (f : float) (q : Q) : Prop :=
  match float_to_Q f with
  | Some x => (x == q)%Q
  | None => False
  end.

Definition is_infinite (f : float) : bool :=
  match f with
  | S754_infinity _ => true
  | _ => false
  end.

Definition is_zero (f : float) : bool :=
  match f with
  | S754_zero _ => true
  | _ => false
  end.

(** [float(z)] for an integer [z]: correctly rounded, [OverflowError] when the
    integer is too large for a float. *)
Definition float_of_int (z : Z) : result float :=
  let f := float_of_dyadic z 0 in
  if is_infinite f then Raise OverflowError else Ok f.

(** The integer [z] as an unrounded mantissa with exponent 0. *)
Definition raw_int (z : Z) : float :=
  match z with
  | Z0 => S754_zero false
  | Zpos p => S754_finite false p 0
  | Zneg p => S754_finite true p 0
  end.

(** [int(f)] for a float [f]: truncation towards zero. *)
Definition int_of_float (f : float) : result Z :=
  match f with
  | S754_zero _ => Ok 0
  | S754_nan => Raise ValueError
  | S754_infinity _ => Raise OverflowError
  | S754_finite s m e =>
      let a := if 0 <=? e then Z.shiftl (Zpos m) e else Z.shiftr (Zpos m) (- e) in
      Ok (if s then - a else a)
  end.

(** A Python number: [int] or [float]. *)
Inductive num : Type :=
| NInt (z : Z)
| NFloat (f : float).

(** [float(n)] for a number. *)
Definition num_to_float (n : num) : result float :=
  match n with
  | NInt z => float_of_int z
  | NFloat f => Ok f
  end.

(** [a + b]. *)
Definition num_add (a b : num) : result num :=
  match a, b with
  | NInt x, NInt y => Ok (NInt (x + y))
  | _, _ =>
      fa <- num_to_float a ;;
      fb <- num_to_float b ;;
      Ok (NFloat (fadd fa fb))
  end.

(** [a / b]: true division.  Two integers give the correctly rounded
    quotient; otherwise both operands are converted to floats first. *)
Definition num_truediv (a b : num) : result num :=
  match a, b with
  | NInt x, NInt y =>
      if y =? 0 then Raise ZeroDivisionError
      else
        let q := fdiv (raw_int x) (raw_int y) in
        if is_infinite q then Raise OverflowError else Ok (NFloat q)
  | _, _ =>
      fa <- num_to_float a ;;
      fb <- num_to_float b ;;
      if is_zero fb then Raise ZeroDivisionError else Ok (NFloat (fdiv fa fb))
  end.

(** [f < z] for a float and an integer, compared exactly. *)
Definition float_lt_int (f : float) (z : Z) : bool :=
  match f with
  | S754_nan => false
  | S754_infinity s => s
  | S754_zero _ => 0 <? z
  | S754_finite s m e =>
      let v := if s then Zneg m else Zpos m in
      if 0 <=? e then Z.shiftl v e <? z else v <? Z.shiftl z (- e)
  end.

(** [n < z] for a number and an integer. *)
Definition num_lt_int (n : num) (z : Z) : bool :=
  match n with
  | NInt x => x <? z
  | NFloat f => float_lt_int f z
  end.

(* ================================================================== *)
(** * Text of numbers *)

(** [str(z)] for an integer (without the interpreter's optional limit on
    the number of digits). *)
Definition str_int (z : Z) : string := NilZero.string_of_int (Z.to_int z).

(** The integer nearest to [a / b] for [0 <= a] and [0 < b], ties to even. *)
Definition div_half_even (a b : Z) : Z :=
  let q := a / b in
  match (2 * (a mod b)) ?= b with
  | Lt => q
  | Gt => q + 1
  | Eq => if Z.even q then q else q + 1
  end.

(** The integer nearest to [m * 2^e * 10^p], ties to even. *)
Definition scaled (p : nat) (m : positive) (e : Z) : Z :=
  let t := Zpos m * 10 ^ Z.of_nat p in
  if 0 <=? e then Z.shiftl t e else div_half_even t (2 ^ (- e)).

Fixpoint zeros (n : nat) : string :=
  match n with
  | O => ""
  | S n' => String "0" (zeros n')
  end.

(** [n] (non-negative, in units of [10^-p]) written with [p] decimals. *)
Definition fixed (p : nat) (n : Z) : string :=
  let ip := n / 10 ^ Z.of_nat p in
  let fp := str_int (n mod 10 ^ Z.of_nat p) in
  match p with
  | O => str_int ip
  | _ => str_int ip ++ "." ++ zeros (p - String.length fp) ++ fp
  end.

Definition sign_str (s : bool) : string := if s then "-" else "".

(** [format(f, ".<p>f")] for a float. *)
Definition float_format_f (p : nat) (f : float) : string :=
  match f with
  | S754_nan => "nan"
  | S754_infinity s => sign_str s ++ "inf"
  | S754_zero s => sign_str s ++ fixed p 0
  | S754_finite s m e => sign_str s ++ fixed p (scaled p m e)
  end.

(** [format(n, ".<p>f")] for a number: an integer is converted to a float
    first. *)
Definition num_format_f (p : nat) (n : num) : result string :=
  f <- num_to_float n ;;
  Ok (float_format_f p f).

(* ================================================================== *)
(** * fmt_bytes *)

(** The [for unit in [...]] loop of [fmt_bytes]; falling off the end of the
    loop returns [None]. *)
Fixpoint fmt_bytes_loop (units : list string) (n : num) : result (option string) :=
  match units with
  | [] => Ok None
  | unit :: rest =>
      if num_lt_int n 1024 || String.eqb unit "GiB" then
        if String.eqb unit "B" then
          s <- num_format_f 0 n ;;
          Ok (Some (s ++ " " ++ unit))
        else
          q <- num_truediv n (NInt 1024) ;;
          s <- num_format_f 1 q ;;
          Ok (Some (s ++ " " ++ unit))
      else
        n' <- num_truediv n (NInt 1024) ;;
        fmt_bytes_loop rest n'
  end.

Definition units : list string := ["B"; "KiB"; "MiB"; "GiB"].

Definition fmt_bytes (n : num) : result (option string) := fmt_bytes_loop units n.

(** [n] divided by 1024 [k] times, one true division after the other. *)
Fixpoint div_1024 (k : nat) (n : num) : result num :=
  match k with
  | O => Ok n
  | S k' => q <- num_truediv n (NInt 1024) ;; div_1024 k' q
  end.

(* ================================================================== *)
(** * Built-in conversions on JSON values *)

(** What the development leaves to the interpreter, so that every theorem
    holds whatever the interpreter does there: [int(s)] and [float(s)] for a
    text [s], the parsers of numeric text; and [float_sum ns], what [sum]
    returns on the numbers [ns] when at least one of them is a float.
    CPython up to 3.11 adds such numbers from left to right
    ([sum_left_to_right] below); CPython 3.12 and later compensate the
    rounding errors of the float additions, which can change the last
    bits. *)
Class TextNumbers : Type := {
  int_of_str : string -> result Z;
  float_of_str : string -> result float;
  float_sum : list num -> result float
}.

(** [bool(v)]: the truth value of a JSON value. *)
Definition py_bool (v : json) : bool :=
  match v with
  | JNull => false
  | JBool b => b
  | JInt z => negb (z =? 0)
  | JFloat f => negb (is_zero f)
  | JStr s => negb (String.eqb s "")
  | JList l => match l with [] => false | _ :: _ => true end
  | JDict d => match d with [] => false | _ :: _ => true end
  end.

(** [v or {}]. *)
Definition or_empty (v : json) : json := if py_bool v then v else JDict [].

(** The attribute lookups [v.get], [v.values] and [v.items]: of the JSON
    values only an object has them. *)
Definition as_dict (v : json) : result dict :=
  match v with
  | JDict d => Ok d
  | _ => Raise AttributeError
  end.

Definition int_of_bool (b : bool) : Z := if b then 1 else 0.

(** A JSON value as an operand of [+]: [bool] is a subclass of [int]. *)
Definition json_num (v : json) : result num :=
  match v with
  | JInt z => Ok (NInt z)
  | JBool b => Ok (NInt (int_of_bool b))
  | JFloat f => Ok (NFloat f)
  | _ => Raise TypeError
  end.

Definition json_of_num (n : num) : json :=
  match n with
  | NInt z => JInt z
  | NFloat f => JFloat f
  end.

(** The numbers at the front of [vs], and the items from the first one that
    is no number on. *)
Fixpoint leading_numbers (vs : list json) : list num * list json :=
  match vs with
  | [] => ([], [])
  | v :: vs' =>
      match json_num v with
      | Ok n => let (ns, rest) := leading_numbers vs' in (n :: ns, rest)
      | Raise _ => ([], vs)
      end
  end.

Definition is_int (n : num) : bool :=
  match n with
  | NInt _ => true
  | NFloat _ => false
  end.

(** The integers among the numbers [ns]. *)
Definition ints_of (ns : list num) : list Z :=
  flat_map (fun n => match n with NInt z => [z] | NFloat _ => [] end) ns.

(** [sum] of a list of integers. *)
Definition sum_ints (zs : list Z) : Z := fold_left Z.add zs 0.

(** The numbers [ns] added to [acc] one after the other. *)
Fixpoint sum_nums (acc : num) (ns : list num) : result num :=
  match ns with
  | [] => Ok acc
  | n :: ns' => acc' <- num_add acc n ;; sum_nums acc' ns'
  end.

(** The [float_sum] of CPython up to 3.11: the numbers are added to the start
    value [0] from left to right. *)
Definition sum_left_to_right (ns : list num) : result float :=
  s <- sum_nums (NInt 0) ns ;;
  num_to_float s.

Section Builtins.
Context {T : TextNumbers}.

(** [sum(vs)].  The items are taken from left to right.  Integers (and
    booleans) add up exactly; from the first float on the result is a float,
    the interpreter's [float_sum] of the numbers; an item that is no number
    raises [TypeError] when the sum reaches it. *)
Definition py_sum (vs : list json) : result num :=
  let (ns, rest) := leading_numbers vs in
  total <- (if forallb is_int ns then Ok (NInt (sum_ints (ints_of ns)))
            else f <- float_sum ns ;; Ok (NFloat f)) ;;
  match rest with
  | [] => Ok total
  | _ :: _ => Raise TypeError
  end.

(** [int(v)]. *)
Definition py_int (v : json) : result Z :=
  match v with
  | JInt z => Ok z
  | JBool b => Ok (int_of_bool b)
  | JFloat f => int_of_float f
  | JStr s => int_of_str s
  | _ => Raise TypeError
  end.

(** [float(v)]. *)
Definition py_float (v : json) : result float :=
  match v with
  | JInt z => float_of_int z
  | JBool b => float_of_int (int_of_bool b)
  | JFloat f => Ok f
  | JStr s => float_of_str s
  | _ => Raise TypeError
  end.

(* ================================================================== *)
(** * get_opt and derive *)

(** [get_opt(opts, row, key)]: [opts[key]] when [opts] is an object that has
    [key], and [row.get(key, 0)] otherwise. *)
Definition get_opt (opts : json) (row : dict) (key : string) : json :=
  match opts with
  | JDict o =>
      match dict_lookup key o with
      | Some v => v
      | None => dict_get row key (JInt 0)
      end
  | _ => dict_get row key (JInt 0)
  end.

(** The metric record [derive] returns. *)
Record metric : Type := {
  Ncols : Z;
  ell : Z;
  ellp : Z;
  rho : Z;
  eta : Z;
  theta : Z;
  ok_lin : bool;
  ok_eq4 : bool;
  ok_sum : bool;
  ok_all : bool;
  t_total_ms : float;
  t_norm_ms : float;
  size_fpar_core : Z;
  size_fpar_norm : Z;
  size_fpar_total : Z;
  size_witness_norm : Z;
  size_witness_total : Z;
  size_total_bytes : Z
}.

(** The float [1000.0]. *)
Definition f1000 : float := float_of_dyadic 1000 0.

(** The float [0.0]. *)
Definition f0 : float := S754_zero false.

(** [sum(int(v) for k, v in sizes.items() if k.startswith(prefix))]. *)
Definition sum_prefix (prefix : string) (sizes : dict) : result Z :=
  zs <- mapM py_int (dict_values (filter (fun kv => String.prefix prefix (fst kv)) sizes)) ;;
  Ok (sum_ints zs).

(** [total_us = times.get("__total__")], replaced by [sum(times.values())]
    when it is [None]. *)
Definition total_us_of (times : dict) : result json :=
  match dict_get times "__total__" JNull with
  | JNull => s <- py_sum (dict_values times) ;; Ok (json_of_num s)
  | v => Ok v
  end.

(** [derive(row)], statement by statement. *)
Definition derive (row : json) : result metric :=
  r <- as_dict row ;;
  let opts := dict_get r "Opts" (JDict []) in
  let ncols := get_opt opts r "NCols" in
  let ell := get_opt opts r "Ell" in
  let ellp := get_opt opts r "EllPrime" in
  let rho := get_opt opts r "Rho" in
  let eta := get_opt opts r "Eta" in
  let theta := get_opt opts r "Theta" in

  verdict <- as_dict (or_empty (dict_get r "Verdict" (JDict []))) ;;
  let ok_lin := py_bool (dict_get verdict "OkLin" (JBool false)) in
  let ok_eq4 := py_bool (dict_get verdict "OkEq4" (JBool false)) in
  let ok_sum := py_bool (dict_get verdict "OkSum" (JBool false)) in
  let ok_all := ok_lin && ok_eq4 && ok_sum in

  times <- as_dict (or_empty (dict_get r "TimingsUS" (JDict []))) ;;
  total_us <- total_us_of times ;;
  t_norm <- py_float (dict_get times "buildFparLinfChain" (JFloat f0)) ;;

  sizes <- as_dict (or_empty (dict_get r "SizesB" (JDict []))) ;;
  zs <- mapM py_int (dict_values sizes) ;;
  let size_total := sum_ints zs in
  size_fpar_total <- sum_prefix "piop/Fpar/" sizes ;;
  size_fpar_core <- py_int (dict_get sizes "piop/Fpar/core" (JInt 0)) ;;
  size_fpar_norm <- py_int (dict_get sizes "piop/Fpar/linf_chain" (JInt 0)) ;;
  size_witness_total <- sum_prefix "piop/witness/" sizes ;;
  wm <- py_int (dict_get sizes "piop/witness/linf_chain/M" (JInt 0)) ;;
  wd <- py_int (dict_get sizes "piop/witness/linf_chain/D" (JInt 0)) ;;
  let size_witness_norm := wm + wd in

  i_ncols <- py_int ncols ;;
  i_ell <- py_int ell ;;
  i_ellp <- py_int ellp ;;
  i_rho <- py_int rho ;;
  i_eta <- py_int eta ;;
  i_theta <- py_int theta ;;
  f_total <- py_float total_us ;;
  Ok {| Ncols := i_ncols;
        ell := i_ell;
        ellp := i_ellp;
        rho := i_rho;
        eta := i_eta;
        theta := i_theta;
        ok_lin := ok_lin;
        ok_eq4 := ok_eq4;
        ok_sum := ok_sum;
        ok_all := ok_all;
        t_total_ms := fdiv f_total f1000;
        t_norm_ms := fdiv t_norm f1000;
        size_fpar_core := size_fpar_core;
        size_fpar_norm := size_fpar_norm;
        size_fpar_total := size_fpar_total;
        size_witness_norm := size_witness_norm;
        size_witness_total := size_witness_total;
        size_total_bytes := size_total |}.

(* ================================================================== *)
(** * The deriver in the words of the specification *)

(** The six parameters: the name in the raw record, the field of the metric
    record. *)
Definition params : list (string * (metric -> Z)) :=
  [("NCols", Ncols); ("Ell", ell); ("EllPrime", ellp);
   ("Rho", rho); ("Eta", eta); ("Theta", theta)].

(** The three verdicts: the name in [Verdict], the field of the metric
    record. *)
Definition verdicts : list (string * (metric -> bool)) :=
  [("OkLin", ok_lin); ("OkEq4", ok_eq4); ("OkSum", ok_sum)].

(** The groups that [derive] reads with [row.get(name, {}) or {}]. *)
Definition groups : list string := ["Verdict"; "TimingsUS"; "SizesB"].

(** The mapping a group holds; the empty mapping when the group is absent or
    is no mapping. *)
Definition group (r : dict) (name : string) : dict :=
  match dict_lookup name r with
  | Some (JDict d) => d
  | _ => []
  end.

(** A group that is present is a mapping, or a value that counts as false
    (null, false, 0, an empty text or sequence). *)
Definition group_ok (r : dict) (name : string) : Prop :=
  match dict_lookup name r with
  | Some v => py_bool v = false \/ exists d, v = JDict d
  | None => True
  end.

(** [Opts] is not a mapping that has the key [name]. *)
Definition opts_lacks (r : dict) (name : string) : Prop :=
  forall o, dict_lookup "Opts" r = Some (JDict o) -> dict_lookup name o = None.

(** [Opts] is a mapping that holds [v] under [name]. *)
Definition opts_has (r : dict) (name : string) (v : json) : Prop :=
  exists o, dict_lookup "Opts" r = Some (JDict o) /\ dict_lookup name o = Some v.

(** Where a parameter comes from: [Opts[name]] first, then the top-level
    field; [None] when neither is there. *)
Definition resolve (r : dict) (name : string) : option json :=
  match dict_lookup "Opts" r with
  | Some (JDict o) =>
      match dict_lookup name o with
      | Some v => Some v
      | None => dict_lookup name r
      end
  | _ => dict_lookup name r
  end.

(** The entry of [sizes] at the exact key [key], as an integer; 0 when
    absent. *)
Definition entry_int (sizes : dict) (key : string) (z : Z) : Prop :=
  match dict_lookup key sizes with
  | Some v => py_int v = Ok z
  | None => z = 0
  end.

(** [z] is the sum of the entries of [sizes] whose key satisfies [p], each
    entry as an integer. *)
Definition entries_sum (p : string -> bool) (sizes : dict) (z : Z) : Prop :=
  exists zs,
    Forall2 (fun kv x => py_int (snd kv) = Ok x) (filter (fun kv => p (fst kv)) sizes) zs /\
    z = fold_right Z.add 0 zs.

(** [f] is the float of the sum of the numbers [ns]: of their exact integer
    sum when all of them are integers, and the interpreter's float sum of
    them otherwise. *)
Definition total_of (ns : list num) (f : float) : Prop :=
  if forallb is_int ns then float_of_int (fold_right Z.add 0 (ints_of ns)) = Ok f
  else float_sum ns = Ok f.

(** Every value that is present in the record can be coerced as [derive]
    coerces it; nothing is asked of what is absent. *)
Record present_ok (r : dict) : Prop := {
  present_params :
    forall name field v,
      In (name, field) params -> resolve r name = Some v -> exists z, py_int v = Ok z;
  present_groups :
    forall name, In name groups -> group_ok r name;
  present_total :
    forall v, dict_lookup "__total__" (group r "TimingsUS") = Some v ->
              v <> JNull /\ exists f, py_float v = Ok f;
  present_timings :
    dict_lookup "__total__" (group r "TimingsUS") = None ->
    exists s f, py_sum (dict_values (group r "TimingsUS")) = Ok s /\ num_to_float s = Ok f;
  present_norm :
    forall v, dict_lookup "buildFparLinfChain" (group r "TimingsUS") = Some v ->
              exists f, py_float v = Ok f;
  present_sizes :
    forall k v, In (k, v) (group r "SizesB") -> exists z, py_int v = Ok z
}.

(** What [derive] returns on the empty mapping. *)
Definition zero_metric : metric :=
  {| Ncols := 0; ell := 0; ellp := 0; rho := 0; eta := 0; theta := 0;
     ok_lin := false; ok_eq4 := false; ok_sum := false; ok_all := false;
     t_total_ms := f0; t_norm_ms := f0;
     size_fpar_core := 0; size_fpar_norm := 0; size_fpar_total := 0;
     size_witness_norm := 0; size_witness_total := 0; size_total_bytes := 0 |}.

End Builtins.

(* ================================================================== *)
(** * sorted *)

Section Sorting.
Context {A K : Type}.
Variable key : A -> K.
Variable ltb : K -> K -> bool.

(** [x] goes in front of the first item whose key is not below the key
    of [x]. *)
Fixpoint insert_sorted (x : A) (l : list A) : list A :=
  match l with
  | [] => [x]
  | y :: l' => if ltb (key y) (key x) then y :: insert_sorted x l' else x :: l
  end.

(** [sorted(l, key=key)]: a stable sort that compares keys with [<] only.
    On a total order the stably sorted permutation of a list is unique, so
    the sorting algorithm itself does not matter. *)
Definition sorted (l : list A) : list A := fold_right insert_sorted [] l.

(** [x] is not after [y] in the order of the keys. *)
Definition key_le (x y : A) : Prop := ltb (key y) (key x) = false.

End Sorting.

(** [a < b] for two tuples of integers: the first position where they differ
    decides, and a proper prefix is smaller. *)
Fixpoint tuple_ltb (a b : list Z) : bool :=
  match a, b with
  | [], [] => false
  | [], _ :: _ => true
  | _ :: _, [] => false
  | x :: a', y :: b' => if x =? y then tuple_ltb a' b' else x <? y
  end.

(** The [key=] function of both renderers. *)
Definition sort_key (r : metric) : list Z :=
  [Ncols r; ell r; ellp r; rho r; eta r; theta r].

(** Lexicographic order on tuples of integers: [lex_le a b] is [a <= b]. *)
Inductive lex_le : list Z -> list Z -> Prop :=
| lex_le_nil (b : list Z) : lex_le [] b
| lex_le_lt (x y : Z) (a b : list Z) : x < y -> lex_le (x :: a) (y :: b)
| lex_le_eq (x : Z) (a b : list Z) : lex_le a b -> lex_le (x :: a) (x :: b).

(** [a == b] for two tuples of integers. *)
Definition tuple_eqb (a b : list Z) : bool :=
  if list_eq_dec Z.eq_dec a b then true else false.

(** The order on paths: [str_le a b] is [a <= b] on strings. *)
Definition str_le (a b : string) : Prop := String.leb a b = true.

Definition rows_sorted (rows : list metric) : list metric :=
  sorted sort_key tuple_ltb rows.

(* ================================================================== *)
(** * Input and output *)

(** What opening a file and running [json.load] on it gives: the parsed
    value, or an exception whose text is [reason]. *)
Inductive loaded : Type :=
| LoadFailed (reason : string)
| Loaded (data : json).

(** A cell handed to the CSV writer. *)
Inductive cell : Type :=
| CStr (s : string)
| CInt (z : Z)
| CBool (b : bool)
| CFloat (f : float).

(** What the program hands to a file: a text to [f.write], or rows to the
    CSV writer. *)
Inductive content : Type :=
| Text (s : string)
| Csv (table : list (list cell)).

(** What happens when the program opens a file with [open(path, "w")] and
    writes to it.  [open] may raise, and the file is not touched.  Or [open]
    creates or empties the file and a later write raises, and the file is
    left with what had reached it: this is the case of the Markdown text when
    the encoding the file was opened with (the locale's, as [open] is given
    none) cannot encode the check mark or the cross, where [f.write] raises
    [UnicodeEncodeError] and the file is left empty.  Or everything is
    written. *)
Inductive write_outcome : Type :=
| OpenFails (e : exn)
| WriteFails (e : exn) (remains : content)
| WriteDone.

(** The file system as the program sees it. *)
Record world : Type := {
  glob : string -> list string;
  read_json : string -> loaded;
  try_write : string -> content -> write_outcome
}.

(** What the program does to the outside, in order.  [FileWritten]: the file
    was opened and everything was written to it.  [FileLeft]: the file was
    opened, a write raised, and the file holds [c].  The standard streams
    accept every line. *)
Inductive event : Type :=
| Stderr (line : string)
| Stdout (line : string)
| FileWritten (path : string) (c : content)
| FileLeft (path : string) (c : content).

(** An effectful computation: the events it produced, and its result. *)
Definition io (A : Type) : Type := (list event * result A)%type.

Definition io_ret {A : Type} (a : A) : io A := ([], Ok a).

Definition io_bind {A B : Type} (c : io A) (k : A -> io B) : io B :=
  match c with
  | (ev, Ok a) => let (ev', r) := k a in (ev ++ ev', r)%list
  | (ev, Raise e) => (ev, Raise e)
  end.

Notation "x <~ c ;; k" := (io_bind c (fun x => k))
  (at level 61, c at next level, right associativity).

Definition emit (e : event) : io unit := ([e], Ok tt).

Definition lift {A : Type} (r : result A) : io A := ([], r).

Definition events {A : Type} (c : io A) : list event := fst c.

Definition outcome {A : Type} (c : io A) : result A := snd c.


(** [os.path.join(a, b)] on POSIX. *)
Definition ends_with_slash (a : string) : bool :=
  match String.length a with
  | O => false
  | S n => match String.get n a with
           | Some c => Ascii.eqb c "/"
           | None => false
           end
  end.

Definition starts_with_slash (b : string) : bool := String.prefix "/" b.

Definition os_path_join (a b : string) : string :=
  if starts_with_slash b then b
  else if String.eqb a "" || ends_with_slash a then a ++ b
  else a ++ "/" ++ b.

(* ================================================================== *)
(** * load_rows *)

(** One turn of the loop of [load_rows]: [rows] is the list built so far. *)
Definition load_step (w : world) (rows : list json) (path : string) : io (list json) :=
  match read_json w path with
  | LoadFailed e =>
      _ <~ emit (Stderr ("[warn] failed to parse " ++ path ++ ": " ++ e)) ;;
      io_ret rows
  | Loaded data =>
      let data := match data with JDict _ => JList [data] | _ => data end in
      match data with
      | JList l => io_ret (rows ++ l)%list
      | _ =>
          _ <~ emit (Stderr ("[warn] " ++ path ++ " ignored: top-level JSON is not a list/dict")) ;;
          io_ret rows
      end
  end.

Fixpoint load_loop (w : world) (paths : list string) (rows : list json) : io (list json) :=
  match paths with
  | [] => io_ret rows
  | path :: rest => rows' <~ load_step w rows path ;; load_loop w rest rows'
  end.

(** The paths [load_rows] visits, in order.  Paths are UTF-8 byte strings,
    on which the order of the bytes is the order of the code points. *)
Definition sorted_paths (w : world) (input_dir : string) : list string :=
  sorted (fun p => p) String.ltb (glob w (os_path_join input_dir "*.json")).

Definition load_rows (w : world) (input_dir : string) : io (list json) :=
  load_loop w (sorted_paths w input_dir) [].

(* ================================================================== *)
(** * write_markdown *)

Definition md_hdr : list string :=
  ["Ncols"; "ell"; "ellp"; "rho"; "eta"; "theta";
   "OK"; "t_total(ms)"; "t_norm(ms)";
   "Fpar(core)"; "Fpar(norm)"; "Fpar(total)";
   "Wit(norm)"; "Wit(total)"; "All(sizes)"].

(** The check mark U+2714 and the cross U+2718, in UTF-8. *)
Definition check_mark : string := String "226" (String "156" (String "148" "")).
Definition cross_mark : string := String "226" (String "156" (String "152" "")).

(** [sep.join(items)]: every item must be a [str]. *)
Fixpoint all_str (items : list (option string)) : result (list string) :=
  match items with
  | [] => Ok []
  | Some s :: rest => ss <- all_str rest ;; Ok (s :: ss)
  | None :: _ => Raise TypeError
  end.

Definition str_join (sep : string) (items : list (option string)) : result string :=
  ss <- all_str items ;;
  Ok (String.concat sep ss).

(** ["| " + " | ".join(cells) + " |"]. *)
Definition md_line (cells : list (option string)) : result string :=
  body <- str_join " | " cells ;;
  Ok ("| " ++ body ++ " |").

(** The list [rec] of one turn of the loop. *)
Definition md_rec (r : metric) : result (list (option string)) :=
  c1 <- fmt_bytes (NInt (size_fpar_core r)) ;;
  c2 <- fmt_bytes (NInt (size_fpar_norm r)) ;;
  c3 <- fmt_bytes (NInt (size_fpar_total r)) ;;
  c4 <- fmt_bytes (NInt (size_witness_norm r)) ;;
  c5 <- fmt_bytes (NInt (size_witness_total r)) ;;
  c6 <- fmt_bytes (NInt (size_total_bytes r)) ;;
  Ok [Some (str_int (Ncols r)); Some (str_int (ell r)); Some (str_int (ellp r));
      Some (str_int (rho r)); Some (str_int (eta r)); Some (str_int (theta r));
      Some (if ok_all r then check_mark else cross_mark);
      Some (float_format_f 0 (t_total_ms r)); Some (float_format_f 0 (t_norm_ms r));
      c1; c2; c3; c4; c5; c6].

(** The data row of one record. *)
Definition md_row (r : metric) : result string :=
  cells <- md_rec r ;;
  md_line cells.

(** The [for r in rows_sorted] loop: [lines] is the list built so far. *)
Fixpoint md_loop (rs : list metric) (lines : list string) : result (list string) :=
  match rs with
  | [] => Ok lines
  | r :: rest => line <- md_row r ;; md_loop rest (lines ++ [line])%list
  end.

Definition md_header : result string := md_line (map Some md_hdr).

Definition md_separator : result string :=
  body <- str_join "|" (map (fun _ => Some "---") md_hdr) ;;
  Ok ("|" ++ body ++ "|").

(** The list [lines] when the loop is over. *)
Definition md_lines (rows : list metric) : result (list string) :=
  h <- md_header ;;
  s <- md_separator ;;
  md_loop (rows_sorted rows) [h; s].

Definition newline : string := String "010" "".

(** [with open(path, "w") as f:] and the writes of [c] in its body. *)
Definition write_file (w : world) (path : string) (c : content) : io unit :=
  match try_write w path c with
  | OpenFails e => lift (Raise e)
  | WriteFails e remains => _ <~ emit (FileLeft path remains) ;; lift (Raise e)
  | WriteDone => emit (FileWritten path c)
  end.

Definition write_markdown (w : world) (rows : list metric) (out_path : string) : io unit :=
  lines <~ lift (md_lines rows) ;;
  _ <~ write_file w out_path (Text (String.concat newline lines)) ;;
  emit (Stdout ("[ok] wrote " ++ out_path)).

(* ================================================================== *)
(** * write_csv *)

Definition csv_hdr : list string :=
  ["Ncols"; "ell"; "ellp"; "rho"; "eta"; "theta";
   "ok_lin"; "ok_eq4"; "ok_sum"; "ok_all";
   "t_total_ms"; "t_norm_ms";
   "size_fpar_core"; "size_fpar_norm"; "size_fpar_total";
   "size_witness_norm"; "size_witness_total"; "size_total_bytes"].

(** [[r[k] for k in hdr]]. *)
Definition csv_row (r : metric) : list cell :=
  [CInt (Ncols r); CInt (ell r); CInt (ellp r); CInt (rho r); CInt (eta r); CInt (theta r);
   CBool (ok_lin r); CBool (ok_eq4 r); CBool (ok_sum r); CBool (ok_all r);
   CFloat (t_total_ms r); CFloat (t_norm_ms r);
   CInt (size_fpar_core r); CInt (size_fpar_norm r); CInt (size_fpar_total r);
   CInt (size_witness_norm r); CInt (size_witness_total r); CInt (size_total_bytes r)].

(** The [for r in rows_sorted] loop: [table] holds the rows written so far. *)
Fixpoint csv_loop (rs : list metric) (table : list (list cell)) : list (list cell) :=
  match rs with
  | [] => table
  | r :: rest => csv_loop rest (table ++ [csv_row r])%list
  end.

(** The rows handed to the writer, the header first. *)
Definition csv_table (rows : list metric) : list (list cell) :=
  csv_loop (rows_sorted rows) [map CStr csv_hdr].

Definition write_csv (w : world) (rows : list metric) (out_path : string) : io unit :=
  _ <~ write_file w out_path (Csv (csv_table rows)) ;;
  emit (Stdout ("[ok] wrote " ++ out_path)).

(* ================================================================== *)
(** * main *)

(** The parsed command line. *)
Record args : Type := {
  inp : string;
  md : string;
  csv : string
}.

Definition default_args : args := {| inp := "out"; md := "summary.md"; csv := "summary.csv" |}.

Section Main.
Context {T : TextNumbers}.

Definition main (a : args) (w : world) : io unit :=
  rows_raw <~ load_rows w (inp a) ;;
  match rows_raw with
  | [] =>
      _ <~ emit (Stderr ("[err] no JSON files found in " ++ inp a)) ;;
      lift (Raise (SystemExit 1))
  | _ :: _ =>
      derived <~ lift (mapM derive rows_raw) ;;
      _ <~ write_markdown w derived (md a) ;;
      write_csv w derived (csv a)
  end.

End Main.

(* ================================================================== *)
(** * The loader and the outputs in the words of the specification *)

(** The records one file contributes: a top-level mapping is one record, a
    top-level sequence gives its items, anything else gives nothing. *)
Definition spec_accepted (w : world) (path : string) : list json :=
  match read_json w path with
  | Loaded (JDict d) => [JDict d]
  | Loaded (JList l) => l
  | _ => []
  end.

(** The warning one file causes: none for an accepted file, one line on the
    error stream for a file that is skipped. *)
Definition spec_warnings (w : world) (path : string) : list event :=
  match read_json w path with
  | LoadFailed e => [Stderr ("[warn] failed to parse " ++ path ++ ": " ++ e)]
  | Loaded (JDict _) => []
  | Loaded (JList _) => []
  | Loaded _ => [Stderr ("[warn] " ++ path ++ " ignored: top-level JSON is not a list/dict")]
  end.

(** The paths of the files a run wrote in full, in order. *)
Definition files_written (evs : list event) : list string :=
  flat_map (fun e => match e with FileWritten path _ => [path] | _ => [] end) evs.

(* ================================================================== *)
(** * Sample data *)

(** An interpreter to evaluate sample records with: it rejects every text
    as a number (no sample converts one) and adds floats from left to
    right. *)
Definition no_text : TextNumbers :=
  {| int_of_str := fun _ => Raise ValueError;
     float_of_str := fun _ => Raise ValueError;
     float_sum := sum_left_to_right |}.

(** The record of the example scenario of the specification. *)
Definition example_fields : dict :=
  [("Opts", JDict [("NCols", JInt 4); ("Ell", JInt 2); ("EllPrime", JInt 1);
                   ("Rho", JInt 3); ("Eta", JInt 1); ("Theta", JInt 1)]);
   ("Verdict", JDict [("OkLin", JBool true); ("OkEq4", JBool true); ("OkSum", JBool true)]);
   ("TimingsUS", JDict [("buildFparLinfChain", JInt 2000); ("other", JInt 500)]);
   ("SizesB", JDict [("piop/Fpar/core", JInt 100); ("piop/Fpar/linf_chain", JInt 50);
                     ("piop/witness/linf_chain/M", JInt 10);
                     ("piop/witness/linf_chain/D", JInt 5)])].

Definition example_row : json := JDict example_fields.

Definition example_metric : metric :=
  {| Ncols := 4; ell := 2; ellp := 1; rho := 3; eta := 1; theta := 1;
     ok_lin := true; ok_eq4 := true; ok_sum := true; ok_all := true;
     t_total_ms := float_of_dyadic 5 (-1); t_norm_ms := float_of_dyadic 2 0;
     size_fpar_core := 100; size_fpar_norm := 50; size_fpar_total := 150;
     size_witness_norm := 15; size_witness_total := 15; size_total_bytes := 165 |}.

(** A record with a parameter inside [Opts], another one as a top-level
    field, one timing, a null group and nothing else. *)
Definition partial_fields : dict :=
  [("Opts", JDict [("NCols", JInt 4)]);
   ("Rho", JInt 3);
   ("TimingsUS", JDict [("other", JInt 500)]);
   ("SizesB", JNull)].

Definition partial_metric : metric :=
  {| Ncols := 4; ell := 0; ellp := 0; rho := 3; eta := 0; theta := 0;
     ok_lin := false; ok_eq4 := false; ok_sum := false; ok_all := false;
     t_total_ms := float_of_dyadic 1 (-1); t_norm_ms := f0;
     size_fpar_core := 0; size_fpar_norm := 0; size_fpar_total := 0;
     size_witness_norm := 0; size_witness_total := 0; size_total_bytes := 0 |}.

(** A record whose only size is null: [int(None)] raises. *)
Definition bad_record : json :=
  JDict [("SizesB", JDict [("piop/Fpar/core", JNull)])].

(** A directory with one file, which holds [bad_record]. *)
Definition bad_world : world :=
  {| glob := fun pattern => if String.eqb pattern "out/*.json" then ["out/run.json"] else [];
     read_json := fun _ => Loaded bad_record;
     try_write := fun _ _ => WriteDone |}.

(** A directory with four files: a sequence of two records, one record, a
    file that does not parse and a file that holds a number. *)
Definition small_world : world :=
  {| glob := fun pattern =>
       if String.eqb pattern "out/*.json"
       then ["out/b.json"; "out/a.json"; "out/c.json"; "out/B.json"] else [];
     read_json := fun path =>
       if String.eqb path "out/a.json" then Loaded example_row
       else if String.eqb path "out/b.json" then Loaded (JList [JDict []; JDict partial_fields])
       else if String.eqb path "out/c.json" then LoadFailed "Expecting value"
       else Loaded (JInt 3);
     try_write := fun _ _ => WriteDone |}.



(** A record whose SizesB is null and whose NCols is null as well. *)
Definition null_sizes_null_ncols : dict := [("SizesB", JNull); ("NCols", JNull)].

(* ================================================================== *)
(** * Keys and sample data for the further properties *)

(** The top-level keys [derive] reads. *)
Definition derive_keys : list string :=
  ["Opts"; "NCols"; "Ell"; "EllPrime"; "Rho"; "Eta"; "Theta";
   "Verdict"; "TimingsUS"; "SizesB"].

(** A key of SizesB outside both prefixes. *)
Definition other_key (k : string) : bool :=
  negb (String.prefix "piop/Fpar/" k) && negb (String.prefix "piop/witness/" k).

(** A record whose Verdict is a sequence. *)
Definition list_verdict_fields : dict := [("Verdict", JList [JInt 1])].

(** [small_world] with its directory listed in the opposite order. *)
Definition small_world_reversed : world :=
  {| glob := fun pattern => rev (glob small_world pattern);
     read_json := read_json small_world;
     try_write := try_write small_world |}.

(* ================================================================== *)
(** * Facts about the error monad *)

Lemma bind_ok {A B : Type} (c : result A) (k : A -> result B) (b : B) :
  bind c k = Ok b -> exists a, c = Ok a /\ k a = Ok b.
Proof.
  destruct c as [a|e]; simpl; intros H; [eauto | discriminate].
Qed.

Lemma mapM_Forall2 {A B : Type} (f : A -> result B) (l : list A) (bs : list B) :
  mapM f l = Ok bs <-> Forall2 (fun a b => f a = Ok b) l bs.
Proof.
  revert bs; induction l as [|a l IH]; intros bs; simpl.
  - split; intros H.
    + injection H as <-. constructor.
    + inversion H. reflexivity.
  - split; intros H.
    + bind_inv H. injection H as <-. constructor; [assumption | now apply IH].
    + inversion H as [|? b ? bs' Hab Hrest]; subst.
      rewrite Hab; cbn [bind]. apply IH in Hrest. now rewrite Hrest.
Qed.

Lemma mapM_total {A B : Type} (f : A -> result B) (l : list A) :
  (forall a, In a l -> exists b, f a = Ok b) -> exists bs, mapM f l = Ok bs.
Proof.
  induction l as [|a l IH]; intros H; simpl.
  - eauto.
  - destruct (H a (or_introl eq_refl)) as [b Hb]. rewrite Hb; cbn [bind].
    destruct IH as [bs Hbs]; [intros; apply H; now right|].
    rewrite Hbs; cbn [bind]. eauto.
Qed.

(* ================================================================== *)
(** * Facts about sorted *)

Section SortingFacts.
Context {A K : Type}.
Variable key : A -> K.
Variable ltb : K -> K -> bool.

Lemma insert_sorted_perm (x : A) (l : list A) :
  Permutation (insert_sorted key ltb x l) (x :: l).
Proof.
  induction l as [|y l IH]; simpl.
  - apply Permutation_refl.
  - destruct (ltb (key y) (key x)).
    + apply perm_trans with (y :: x :: l); [now apply perm_skip | apply perm_swap].
    + apply Permutation_refl.
Qed.

Lemma sorted_perm (l : list A) : Permutation (sorted key ltb l) l.
Proof.
  induction l as [|x l IH]; simpl.
  - apply perm_nil.
  - apply perm_trans with (x :: sorted key ltb l).
    + apply insert_sorted_perm.
    + now apply perm_skip.
Qed.

Lemma insert_sorted_Forall (P : A -> Prop) (x : A) (l : list A) :
  P x -> Forall P l -> Forall P (insert_sorted key ltb x l).
Proof.
  intros Hx Hl. induction Hl as [|y l Hy Hl IH]; simpl.
  - now constructor.
  - destruct (ltb (key y) (key x)); repeat constructor; assumption.
Qed.

Hypothesis ltb_asym : forall a b, ltb a b = true -> ltb b a = false.
Hypothesis geb_trans : forall a b c, ltb b a = false -> ltb c b = false -> ltb c a = false.

Lemma insert_sorted_strongly (x : A) (l : list A) :
  StronglySorted (key_le key ltb) l -> StronglySorted (key_le key ltb) (insert_sorted key ltb x l).
Proof.
  induction 1 as [|y l Hs IH Hall]; simpl.
  - repeat constructor.
  - destruct (ltb (key y) (key x)) eqn:E.
    + constructor; [assumption|].
      apply insert_sorted_Forall; [|assumption].
      unfold key_le. now apply ltb_asym.
    + constructor; [now constructor|].
      constructor; [exact E|].
      eapply Forall_impl; [|exact Hall].
      intros z Hz. unfold key_le in *. eapply geb_trans; eassumption.
Qed.

Lemma sorted_strongly (l : list A) : StronglySorted (key_le key ltb) (sorted key ltb l).
Proof.
  induction l as [|x l IH]; simpl.
  - constructor.
  - now apply insert_sorted_strongly.
Qed.

(** Stability: the items under any one key keep their order. *)
Variable same : K -> K -> bool.
Hypothesis same_spec : forall a b, same a b = true <-> a = b.

Lemma ltb_irrefl (a : K) : ltb a a = false.
Proof.
  destruct (ltb a a) eqn:E; [|reflexivity].
  rewrite (ltb_asym _ _ E) in E. discriminate.
Qed.

Lemma insert_sorted_filter (k : K) (x : A) (l : list A) :
  filter (fun y => same (key y) k) (insert_sorted key ltb x l)
  = filter (fun y => same (key y) k) (x :: l).
Proof.
  induction l as [|y l IH]; [reflexivity|].
  cbn [insert_sorted]. destruct (ltb (key y) (key x)) eqn:E; [|reflexivity].
  cbn [filter] in *. rewrite IH.
  destruct (same (key x) k) eqn:Ex; [|reflexivity].
  destruct (same (key y) k) eqn:Ey; [|reflexivity].
  apply same_spec in Ex, Ey. rewrite Ex, Ey, ltb_irrefl in E. discriminate.
Qed.

Lemma sorted_stable (k : K) (l : list A) :
  filter (fun y => same (key y) k) (sorted key ltb l)
  = filter (fun y => same (key y) k) l.
Proof.
  induction l as [|x l IH]; [reflexivity|].
  cbn [sorted fold_right]. rewrite insert_sorted_filter.
  cbn [filter]. fold (sorted key ltb l). now rewrite IH.
Qed.

(** A stable sort has one possible result: two lists in the order of the
    keys that agree on the items under every key are equal. *)
Hypothesis ltb_antisym : forall a b, ltb a b = false -> ltb b a = false -> a = b.

Lemma filter_key_In (k : K) (x : A) (l : list A) :
  In x (filter (fun y => same (key y) k) l) -> In x l /\ key x = k.
Proof.
  intros H. apply filter_In in H. destruct H as [H1 H2].
  split; [assumption | now apply same_spec].
Qed.

Lemma same_refl (k : K) : same k k = true.
Proof. now apply same_spec. Qed.

Lemma sorted_head_le (x y : A) (l : list A) :
  StronglySorted (key_le key ltb) (x :: l) -> In y (x :: l) -> ltb (key y) (key x) = false.
Proof.
  intros Hs [<-|Hin]; [apply ltb_irrefl|].
  apply StronglySorted_inv in Hs. destruct Hs as [_ Hall].
  rewrite Forall_forall in Hall. now apply Hall.
Qed.

Lemma stable_sorted_unique (l1 l2 : list A) :
  StronglySorted (key_le key ltb) l1 ->
  StronglySorted (key_le key ltb) l2 ->
  (forall k, filter (fun y => same (key y) k) l1 = filter (fun y => same (key y) k) l2) ->
  l1 = l2.
Proof.
  revert l2; induction l1 as [|x l1 IH]; intros l2 H1 H2 Hf.
  - destruct l2 as [|y l2]; [reflexivity|].
    specialize (Hf (key y)). cbn [filter] in Hf. rewrite same_refl in Hf. discriminate.
  - destruct l2 as [|y l2].
    { specialize (Hf (key x)). cbn [filter] in Hf. rewrite same_refl in Hf. discriminate. }
    assert (Hx : In x (y :: l2)).
    { apply (filter_key_In (key x)). rewrite <- Hf. cbn [filter].
      rewrite same_refl. now left. }
    assert (Hy : In y (x :: l1)).
    { apply (filter_key_In (key y)). rewrite Hf. cbn [filter].
      rewrite same_refl. now left. }
    assert (Hk : key x = key y).
    { apply ltb_antisym.
      - apply (sorted_head_le y x l2 H2 Hx).
      - apply (sorted_head_le x y l1 H1 Hy). }
    pose proof (Hf (key x)) as Hfx. cbn [filter] in Hfx.
    rewrite same_refl, <- Hk, same_refl in Hfx. injection Hfx as <- _.
    f_equal. apply IH.
    + now apply StronglySorted_inv in H1.
    + now apply StronglySorted_inv in H2.
    + intros k. specialize (Hf k). cbn [filter] in Hf.
      destruct (same (key x) k); [now injection Hf | exact Hf].
Qed.

(** Whatever stable sort the interpreter runs, its result is [sorted l]. *)
Lemma sorted_is_the_stable_sort (l l' : list A) :
  StronglySorted (key_le key ltb) l' ->
  (forall k, filter (fun y => same (key y) k) l' = filter (fun y => same (key y) k) l) ->
  l' = sorted key ltb l.
Proof.
  intros Hs Hf. apply stable_sorted_unique; [assumption | apply sorted_strongly|].
  intros k. now rewrite sorted_stable.
Qed.

End SortingFacts.

Lemma StronglySorted_impl {A : Type} (R R' : A -> A -> Prop) (l : list A) :
  (forall a b, R a b -> R' a b) -> StronglySorted R l -> StronglySorted R' l.
Proof.
  intros HR. induction 1 as [|x l Hs IH Hall]; constructor.
  - assumption.
  - eapply Forall_impl; [|exact Hall]. intros; now apply HR.
Qed.

(* ================================================================== *)
(** * The order of the sort keys *)

Lemma tuple_ltb_lex_le (a b : list Z) : tuple_ltb b a = false <-> lex_le a b.
Proof.
  revert b; induction a as [|x a IH]; intros [|y b]; simpl.
  - split; [constructor | reflexivity].
  - split; [constructor | reflexivity].
  - split; [discriminate | inversion 1].
  - destruct (Z.eqb_spec y x) as [->|Hne].
    + rewrite IH. split; [now constructor|].
      inversion 1; subst; [lia | assumption].
    + split.
      * intros H. apply Z.ltb_ge in H. apply lex_le_lt. lia.
      * inversion 1; subst; [apply Z.ltb_ge; lia | congruence].
Qed.

Lemma tuple_ltb_asym (a b : list Z) : tuple_ltb a b = true -> tuple_ltb b a = false.
Proof.
  revert b; induction a as [|x a IH]; intros [|y b]; simpl; try congruence.
  rewrite (Z.eqb_sym y x). destruct (Z.eqb_spec x y); [apply IH|].
  intros H. apply Z.ltb_lt in H. apply Z.ltb_ge. lia.
Qed.

Lemma tuple_geb_trans (a b c : list Z) :
  tuple_ltb b a = false -> tuple_ltb c b = false -> tuple_ltb c a = false.
Proof.
  revert b c; induction a as [|x a IH]; intros [|y b] [|z c]; simpl; try congruence.
  destruct (Z.eqb_spec y x), (Z.eqb_spec z y), (Z.eqb_spec z x); subst;
    try apply IH; rewrite ?Z.ltb_ge; try congruence; lia.
Qed.

Lemma tuple_ltb_antisym (a b : list Z) :
  tuple_ltb a b = false -> tuple_ltb b a = false -> a = b.
Proof.
  revert b; induction a as [|x a IH]; intros [|y b]; simpl; try congruence.
  rewrite (Z.eqb_sym y x). destruct (Z.eqb_spec x y) as [->|Hne].
  - intros Hab Hba. f_equal. now apply IH.
  - rewrite !Z.ltb_ge. lia.
Qed.

Lemma tuple_eqb_spec (a b : list Z) : tuple_eqb a b = true <-> a = b.
Proof.
  unfold tuple_eqb. destruct (list_eq_dec Z.eq_dec a b); split; congruence.
Qed.

Lemma ascii_compare_refl (c : ascii) : Ascii.compare c c = Eq.
Proof. unfold Ascii.compare. apply N.compare_refl. Qed.

Lemma ascii_compare_lt_trans (a b c : ascii) :
  Ascii.compare a b = Lt -> Ascii.compare b c = Lt -> Ascii.compare a c = Lt.
Proof.
  unfold Ascii.compare. rewrite !N.compare_lt_iff. lia.
Qed.

Lemma string_compare_lt_trans (a b c : string) :
  String.compare a b = Lt -> String.compare b c = Lt -> String.compare a c = Lt.
Proof.
  revert b c; induction a as [|x a IH]; intros [|y b] [|z c]; simpl; try congruence.
  destruct (Ascii.compare x y) eqn:Exy; try discriminate;
    destruct (Ascii.compare y z) eqn:Eyz; try discriminate.
  - apply Ascii.compare_eq_iff in Exy, Eyz. subst. rewrite ascii_compare_refl. apply IH.
  - apply Ascii.compare_eq_iff in Exy. subst. now rewrite Eyz.
  - apply Ascii.compare_eq_iff in Eyz. subst. now rewrite Exy.
  - now rewrite (ascii_compare_lt_trans _ _ _ Exy Eyz).
Qed.

Lemma string_ltb_asym (a b : string) : String.ltb a b = true -> String.ltb b a = false.
Proof.
  unfold String.ltb. rewrite (String.compare_antisym b a).
  destruct (String.compare a b); simpl; congruence.
Qed.

Lemma string_geb_trans (a b c : string) :
  String.ltb b a = false -> String.ltb c b = false -> String.ltb c a = false.
Proof.
  unfold String.ltb. intros Hba Hcb.
  destruct (String.compare c a) eqn:Eca; try reflexivity. exfalso.
  destruct (String.compare c b) eqn:Ecb; [ | discriminate Hcb | ].
  - apply String.compare_eq_iff in Ecb. subst. rewrite Eca in Hba. discriminate.
  - assert (Hbc : String.compare b c = Lt)
      by (rewrite String.compare_antisym, Ecb; reflexivity).
    rewrite (string_compare_lt_trans _ _ _ Hbc Eca) in Hba. discriminate.
Qed.

Lemma string_ltb_leb (a b : string) : String.ltb b a = false -> str_le a b.
Proof.
  unfold String.ltb, str_le, String.leb. rewrite (String.compare_antisym b a).
  destruct (String.compare a b); simpl; congruence.
Qed.

(* ================================================================== *)
(** * The loops of the renderers and of the loader *)

Lemma md_loop_mapM (rs : list metric) (lines : list string) :
  md_loop rs lines = (data <- mapM md_row rs ;; Ok (lines ++ data)%list).
Proof.
  revert lines; induction rs as [|r rs IH]; intros lines; simpl.
  - now rewrite app_nil_r.
  - destruct (md_row r) as [line|e]; cbn [bind]; [|reflexivity].
    rewrite IH. destruct (mapM md_row rs) as [data|e]; cbn [bind]; [|reflexivity].
    now rewrite <- app_assoc.
Qed.

Lemma csv_loop_map (rs : list metric) (table : list (list cell)) :
  csv_loop rs table = (table ++ map csv_row rs)%list.
Proof.
  revert table; induction rs as [|r rs IH]; intros table; simpl.
  - now rewrite app_nil_r.
  - rewrite IH. now rewrite <- app_assoc.
Qed.

Lemma load_step_spec (w : world) (rows : list json) (path : string) :
  load_step w rows path = (spec_warnings w path, Ok (rows ++ spec_accepted w path)%list).
Proof.
  unfold load_step, spec_warnings, spec_accepted.
  destruct (read_json w path) as [e|data]; [|destruct data];
    cbn; rewrite ?app_nil_r; reflexivity.
Qed.

Lemma load_loop_spec (w : world) (paths : list string) (rows : list json) :
  load_loop w paths rows
  = (flat_map (spec_warnings w) paths, Ok (rows ++ flat_map (spec_accepted w) paths)%list).
Proof.
  revert rows; induction paths as [|path paths IH]; intros rows; simpl.
  - now rewrite app_nil_r.
  - rewrite load_step_spec. cbn [io_bind]. rewrite IH. now rewrite <- app_assoc.
Qed.

Lemma files_written_app (e1 e2 : list event) :
  files_written (e1 ++ e2) = (files_written e1 ++ files_written e2)%list.
Proof. unfold files_written. apply flat_map_app. Qed.

Lemma files_written_warnings (w : world) (paths : list string) :
  files_written (flat_map (spec_warnings w) paths) = [].
Proof.
  induction paths as [|path paths IH]; [reflexivity|].
  cbn [flat_map]. rewrite files_written_app, IH, app_nil_r.
  unfold spec_warnings. destruct (read_json w path) as [e|data]; [|destruct data]; reflexivity.
Qed.

Lemma load_rows_eq (w : world) (input_dir : string) :
  load_rows w input_dir
  = (flat_map (spec_warnings w) (sorted_paths w input_dir),
     Ok (flat_map (spec_accepted w) (sorted_paths w input_dir))).
Proof. unfold load_rows. now rewrite load_loop_spec. Qed.

(* ================================================================== *)
(** * The renderers: order of the rows *)

(** C4. Both renderers list their data rows in non-decreasing lexicographic
    order of the key (Ncols, ell, ellp, rho, eta, theta): the sorted list is a
    permutation of the input in that order, records with the same key keep
    their input order, and the Markdown data lines and the CSV data rows are
    the renderings of that one sorted list, item by item. *)
Theorem renderers_rows_sorted_stable (rows : list metric) :
  StronglySorted (fun a b => lex_le (sort_key a) (sort_key b)) (rows_sorted rows) /\
  Permutation (rows_sorted rows) rows /\
  (forall k : list Z,
      filter (fun r => tuple_eqb (sort_key r) k) (rows_sorted rows)
      = filter (fun r => tuple_eqb (sort_key r) k) rows) /\
  (exists h s : string,
      md_header = Ok h /\ md_separator = Ok s /\
      md_lines rows = (data <- mapM md_row (rows_sorted rows) ;; Ok (h :: s :: data))) /\
  csv_table rows = map CStr csv_hdr :: map csv_row (rows_sorted rows).
Proof.
  unfold rows_sorted. repeat split.
  - eapply StronglySorted_impl;
      [|apply (sorted_strongly sort_key tuple_ltb tuple_ltb_asym tuple_geb_trans)].
    intros a b H. now apply tuple_ltb_lex_le.
  - apply sorted_perm.
  - intros k.
    apply (sorted_stable sort_key tuple_ltb tuple_ltb_asym tuple_eqb tuple_eqb_spec).
  - destruct md_header as [h|] eqn:Eh; [|discriminate Eh].
    destruct md_separator as [s|] eqn:Es; [|discriminate Es].
    exists h, s. repeat split.
    unfold md_lines. rewrite Eh, Es. cbn [bind].
    unfold rows_sorted. now rewrite md_loop_mapM.
  - unfold csv_table, rows_sorted. now rewrite csv_loop_map.
Qed.

(** The sorted list of the renderers is the only stably sorted
    rearrangement of their input. *)
Lemma rows_sorted_unique (rows rs : list metric) :
  StronglySorted (fun a b => lex_le (sort_key a) (sort_key b)) rs ->
  (forall k : list Z,
      filter (fun r => tuple_eqb (sort_key r) k) rs
      = filter (fun r => tuple_eqb (sort_key r) k) rows) ->
  rs = rows_sorted rows.
Proof.
  intros Hs Hf.
  apply (sorted_is_the_stable_sort sort_key tuple_ltb tuple_ltb_asym tuple_geb_trans
           tuple_eqb tuple_eqb_spec tuple_ltb_antisym); [|exact Hf].
  eapply StronglySorted_impl; [|exact Hs].
  intros a b H. unfold key_le. now apply tuple_ltb_lex_le.
Qed.

(* ================================================================== *)
(** * The loader *)

(** C8. [load_rows] visits the globbed paths in lexicographically sorted
    order; a top-level mapping counts as one record, a top-level sequence
    gives its items, and any other shape or a failure to read or parse gives
    one warning on the error stream and no record; the loader itself never
    raises, and it returns the accepted records file by file, each file's
    records in their order. *)
Theorem load_rows_sorted_concat (w : world) (input_dir : string) :
  Permutation (sorted_paths w input_dir) (glob w (os_path_join input_dir "*.json")) /\
  StronglySorted str_le (sorted_paths w input_dir) /\
  outcome (load_rows w input_dir)
  = Ok (flat_map (spec_accepted w) (sorted_paths w input_dir)) /\
  events (load_rows w input_dir)
  = flat_map (spec_warnings w) (sorted_paths w input_dir).
Proof.
  rewrite load_rows_eq. repeat split.
  - apply sorted_perm.
  - eapply StronglySorted_impl;
      [|apply (sorted_strongly (fun p : string => p) String.ltb
                 string_ltb_asym string_geb_trans)].
    intros a b H. now apply string_ltb_leb.
Qed.

(* ================================================================== *)
(** * Facts about dictionaries and sums *)

Lemma dict_lookup_In (key : string) (d : dict) (v : json) :
  dict_lookup key d = Some v -> In (key, v) d.
Proof.
  induction d as [|[k x] d IH]; simpl; [discriminate|].
  destruct (String.eqb_spec key k) as [->|Hne].
  - intros H; injection H as ->. now left.
  - intros H. right. now apply IH.
Qed.

Lemma dict_lookup_remove_same (key : string) (d : dict) :
  dict_lookup key (dict_remove key d) = None.
Proof.
  induction d as [|[k x] d IH]; simpl; [reflexivity|].
  destruct (String.eqb key k) eqn:E; simpl; [assumption|].
  now rewrite E.
Qed.

Lemma dict_lookup_remove_other (key k : string) (d : dict) :
  k <> key -> dict_lookup k (dict_remove key d) = dict_lookup k d.
Proof.
  intros Hne. induction d as [|[k' x] d IH]; simpl; [reflexivity|].
  destruct (String.eqb_spec key k') as [<-|Hk]; simpl.
  - destruct (String.eqb_spec k key); [contradiction | assumption].
  - now rewrite IH.
Qed.

Lemma sum_ints_from (zs : list Z) (a : Z) : fold_left Z.add zs a = a + fold_right Z.add 0 zs.
Proof.
  revert a; induction zs as [|z zs IH]; intros a; simpl; [lia|].
  rewrite IH. lia.
Qed.

Lemma sum_ints_fold_right (zs : list Z) : sum_ints zs = fold_right Z.add 0 zs.
Proof. unfold sum_ints. now rewrite sum_ints_from. Qed.

Lemma filter_all {A : Type} (l : list A) : filter (fun _ => true) l = l.
Proof. induction l as [|a l IH]; simpl; congruence. Qed.

Lemma Forall2_map_snd {A B C : Type} (R : B -> C -> Prop) (l : list (A * B)) (cs : list C) :
  Forall2 R (map snd l) cs -> Forall2 (fun kv c => R (snd kv) c) l cs.
Proof.
  revert cs; induction l as [|kv l IH]; intros cs H; inversion H; subst; constructor; auto.
Qed.

Lemma as_dict_group (r : dict) (name : string) (d : dict) :
  as_dict (or_empty (dict_get r name (JDict []))) = Ok d
  <-> group_ok r name /\ d = group r name.
Proof.
  unfold dict_get, group_ok, group, or_empty.
  destruct (dict_lookup name r) as [v|].
  - destruct (py_bool v) eqn:Eb.
    + destruct v; cbn; try (split; [discriminate | intros [[H|[d' H]] _]; discriminate]).
      split; [intros H; injection H as <-; split; [right; eauto | reflexivity]
             | intros [_ ->]; reflexivity].
    + assert (Hd : as_dict (JDict []) = Ok d <-> d = []).
      { cbn. split; [intros H; now injection H | intros ->; reflexivity]. }
      rewrite Hd.
      destruct v as [ | | | | | |d']; cbn;
        try (split; [intros ->; split; [now left | reflexivity] | intros [_ ->]; reflexivity]).
      destruct d'; [|discriminate Eb].
      split; [intros ->; split; [now left | reflexivity] | intros [_ ->]; reflexivity].
  - cbn. split; [intros H; injection H as <-; split; [exact I | reflexivity]
                | intros [_ ->]; reflexivity].
Qed.

Section DeriveFacts.
Context {T : TextNumbers}.

Lemma py_float_json_of_num (s : num) : py_float (json_of_num s) = num_to_float s.
Proof. destruct s; reflexivity. Qed.

Lemma leading_numbers_all (vs : list json) (ns : list num) :
  leading_numbers vs = (ns, []) -> Forall2 (fun v n => json_num v = Ok n) vs ns.
Proof.
  revert ns; induction vs as [|v vs IH]; intros ns H; cbn [leading_numbers] in H.
  - injection H as <-. constructor.
  - destruct (json_num v) as [n|e] eqn:E; [|discriminate H].
    destruct (leading_numbers vs) as [ns' rest]. injection H as <- ->.
    constructor; [exact E | now apply IH].
Qed.

Lemma leading_numbers_null (vs : list json) :
  In JNull vs -> snd (leading_numbers vs) <> [].
Proof.
  induction vs as [|v vs IH]; [contradiction|].
  intros [->|Hin]; cbn [leading_numbers]; [cbn; discriminate|].
  destruct (json_num v); [|cbn; discriminate].
  specialize (IH Hin). destruct (leading_numbers vs) as [ns rest]. exact IH.
Qed.

(** [sum] raises when one of the items is [None]. *)
Lemma py_sum_null (vs : list json) : In JNull vs -> exists e, py_sum vs = Raise e.
Proof.
  intros Hin. pose proof (leading_numbers_null vs Hin) as Hrest. unfold py_sum.
  destruct (leading_numbers vs) as [ns rest]. cbn [snd] in Hrest.
  destruct (if forallb is_int ns then Ok (NInt (sum_ints (ints_of ns)))
            else f <- float_sum ns ;; Ok (NFloat f)) as [total|e]; cbn [bind]; [|eauto].
  destruct rest; [contradiction | eauto].
Qed.

(** What [sum] returned: every item is a number; integers gave their exact
    sum, and numbers with a float among them the interpreter's float sum. *)
Lemma py_sum_ok_inv (vs : list json) (s : num) :
  py_sum vs = Ok s ->
  exists ns,
    Forall2 (fun v n => json_num v = Ok n) vs ns /\
    (if forallb is_int ns then s = NInt (sum_ints (ints_of ns))
     else exists f, float_sum ns = Ok f /\ s = NFloat f).
Proof.
  unfold py_sum. destruct (leading_numbers vs) as [ns rest] eqn:E. intros H.
  bind_inv H. destruct rest; [|discriminate H]. injection H as <-.
  exists ns. split; [now apply leading_numbers_all|].
  destruct (forallb is_int ns).
  - now injection E0 as <-.
  - bind_inv E0. injection E0 as <-. eauto.
Qed.

(** [sum] of integers is their exact sum. *)
Lemma py_sum_ints (zs : list Z) :
  py_sum (map JInt zs) = Ok (NInt (fold_right Z.add 0 zs)).
Proof.
  assert (Hall : forallb is_int (map NInt zs) = true)
    by (induction zs as [|z zs IH]; [reflexivity | exact IH]).
  assert (Hints : ints_of (map NInt zs) = zs).
  { clear Hall. induction zs as [|z zs IH]; [reflexivity|]. cbn. f_equal. exact IH. }
  assert (H : leading_numbers (map JInt zs) = (map NInt zs, [])).
  { clear Hall Hints. induction zs as [|z zs IH]; [reflexivity|]. cbn. now rewrite IH. }
  unfold py_sum. rewrite H, Hall, Hints. cbn [bind]. now rewrite sum_ints_fold_right.
Qed.

Lemma get_opt_resolve (r : dict) (name : string) :
  get_opt (dict_get r "Opts" (JDict [])) r name
  = match resolve r name with Some v => v | None => JInt 0 end.
Proof.
  unfold get_opt, resolve, dict_get.
  destruct (dict_lookup "Opts" r) as [[ | | | | | |o]|]; try reflexivity.
  destruct (dict_lookup name o); reflexivity.
Qed.

Lemma resolve_opts (r : dict) (name : string) (v : json) :
  opts_has r name v -> resolve r name = Some v.
Proof.
  intros (o & Ho & Hv). unfold resolve. now rewrite Ho, Hv.
Qed.

Lemma resolve_top (r : dict) (name : string) :
  opts_lacks r name -> resolve r name = dict_lookup name r.
Proof.
  intros H. unfold resolve, opts_lacks in *.
  destruct (dict_lookup "Opts" r) as [[ | | | | | |o]|]; try reflexivity.
  now rewrite (H o eq_refl).
Qed.

Lemma sum_prefix_entries (p : string) (sizes : dict) (z : Z) :
  sum_prefix p sizes = Ok z -> entries_sum (String.prefix p) sizes z.
Proof.
  unfold sum_prefix, entries_sum, dict_values. intros H. bind_inv H.
  injection H as <-. exists a. split; [|apply sum_ints_fold_right].
  apply mapM_Forall2 in E. now apply (Forall2_map_snd (fun v x => py_int v = Ok x)).
Qed.

Lemma py_int_entry (sizes : dict) (key : string) (z : Z) :
  py_int (dict_get sizes key (JInt 0)) = Ok z -> entry_int sizes key z.
Proof.
  unfold dict_get, entry_int. destruct (dict_lookup key sizes); [easy|].
  simpl. congruence.
Qed.

(** What a successful run of [derive] computed, field by field. *)
Lemma derive_ok_inv (r : dict) (m : metric) :
  derive (JDict r) = Ok m ->
  (group_ok r "Verdict" /\ group_ok r "TimingsUS" /\ group_ok r "SizesB") /\
  (forall name field, In (name, field) params ->
     py_int (get_opt (dict_get r "Opts" (JDict [])) r name) = Ok (field m)) /\
  (ok_lin m = py_bool (dict_get (group r "Verdict") "OkLin" (JBool false)) /\
   ok_eq4 m = py_bool (dict_get (group r "Verdict") "OkEq4" (JBool false)) /\
   ok_sum m = py_bool (dict_get (group r "Verdict") "OkSum" (JBool false)) /\
   ok_all m = ok_lin m && ok_eq4 m && ok_sum m) /\
  (exists v f, total_us_of (group r "TimingsUS") = Ok v /\ py_float v = Ok f /\
               t_total_ms m = fdiv f f1000) /\
  (exists f, py_float (dict_get (group r "TimingsUS") "buildFparLinfChain" (JFloat f0)) = Ok f /\
             t_norm_ms m = fdiv f f1000) /\
  (exists zs, mapM py_int (dict_values (group r "SizesB")) = Ok zs /\
              size_total_bytes m = sum_ints zs) /\
  sum_prefix "piop/Fpar/" (group r "SizesB") = Ok (size_fpar_total m) /\
  py_int (dict_get (group r "SizesB") "piop/Fpar/core" (JInt 0)) = Ok (size_fpar_core m) /\
  py_int (dict_get (group r "SizesB") "piop/Fpar/linf_chain" (JInt 0)) = Ok (size_fpar_norm m) /\
  sum_prefix "piop/witness/" (group r "SizesB") = Ok (size_witness_total m) /\
  (exists a b,
      py_int (dict_get (group r "SizesB") "piop/witness/linf_chain/M" (JInt 0)) = Ok a /\
      py_int (dict_get (group r "SizesB") "piop/witness/linf_chain/D" (JInt 0)) = Ok b /\
      size_witness_norm m = a + b).
Proof.
  unfold derive. cbn [as_dict bind]. intros H.
  destruct (as_dict (or_empty (dict_get r "Verdict" (JDict [])))) as [verdict|] eqn:Ev;
    [cbn [bind] in H | discriminate].
  apply as_dict_group in Ev. destruct Ev as [Gv ->].
  destruct (as_dict (or_empty (dict_get r "TimingsUS" (JDict [])))) as [times|] eqn:Et;
    [cbn [bind] in H | discriminate].
  apply as_dict_group in Et. destruct Et as [Gt ->].
  destruct (total_us_of (group r "TimingsUS")) as [total|] eqn:Etot;
    [cbn [bind] in H | discriminate].
  destruct (py_float (dict_get (group r "TimingsUS") "buildFparLinfChain" (JFloat f0)))
    as [t_norm|] eqn:Enorm; [cbn [bind] in H | discriminate].
  destruct (as_dict (or_empty (dict_get r "SizesB" (JDict [])))) as [sizes|] eqn:Es;
    [cbn [bind] in H | discriminate].
  apply as_dict_group in Es. destruct Es as [Gs ->].
  bind_inv H. injection H as <-. cbn.
  repeat match goal with |- _ /\ _ => split end; eauto 10.
  intros name field Hin. unfold params in Hin. cbn [In] in Hin.
  repeat destruct Hin as [Hin|Hin]; try contradiction;
    injection Hin as <- <-; assumption.
Qed.

End DeriveFacts.

(* ================================================================== *)
(** * The deriver *)

Section DeriveClaims.
Context {T : TextNumbers}.

(** C2. The record of the example scenario derives to t_total_ms = 2.5,
    t_norm_ms = 2.0, size_fpar_total = 150, size_witness_total = 15,
    size_total_bytes = 165 and ok_all = true. *)
Theorem derive_example_scenario :
  exists m, derive example_row = Ok m /\
    float_is (t_total_ms m) (5 # 2) /\ float_format_f 1 (t_total_ms m) = "2.5" /\
    float_is (t_norm_ms m) 2 /\ float_format_f 1 (t_norm_ms m) = "2.0" /\
    size_fpar_total m = 150 /\
    size_witness_total m = 15 /\
    size_total_bytes m = 165 /\
    ok_all m = true.
Proof.
  exists example_metric. split; [vm_compute; reflexivity|].
  repeat split; vm_compute; reflexivity.
Qed.

(** C3. Each of the six parameters of a derived record is the integer value
    of [Opts[name]] when [Opts] is a mapping that has the key; otherwise of
    the top-level field of that name when the record has one; otherwise 0.
    So a record that carries a value only as a top-level field derives the
    same parameter as a record that carries the value inside [Opts]. *)
Theorem derive_param_resolution (r : dict) (m : metric) (name : string) (field : metric -> Z)
    (Hd : derive (JDict r) = Ok m) (Hin : In (name, field) params) :
  (forall v, opts_has r name v -> py_int v = Ok (field m)) /\
  (forall v, opts_lacks r name -> dict_lookup name r = Some v -> py_int v = Ok (field m)) /\
  (opts_lacks r name -> dict_lookup name r = None -> field m = 0) /\
  (forall r' m' v,
      derive (JDict r') = Ok m' ->
      opts_lacks r name -> dict_lookup name r = Some v ->
      opts_has r' name v ->
      field m = field m').
Proof.
  pose proof (derive_ok_inv r m Hd) as (_ & Hp & _).
  specialize (Hp name field Hin). rewrite get_opt_resolve in Hp.
  assert (Htop : forall v, opts_lacks r name -> dict_lookup name r = Some v ->
                           py_int v = Ok (field m)).
  { intros v Hl Hv. rewrite (resolve_top r name Hl), Hv in Hp. exact Hp. }
  repeat split.
  - intros v Hv. now rewrite (resolve_opts r name v Hv) in Hp.
  - exact Htop.
  - intros Hl Hv. rewrite (resolve_top r name Hl), Hv in Hp.
    simpl in Hp. congruence.
  - intros r' m' v Hd' Hl Hv Hopts.
    pose proof (derive_ok_inv r' m' Hd') as (_ & Hp' & _).
    specialize (Hp' name field Hin).
    rewrite get_opt_resolve, (resolve_opts r' name v Hopts) in Hp'.
    specialize (Htop v Hl Hv). congruence.
Qed.

(** C5. In a derived record, t_total_ms is the value under the aggregate key
    [__total__] of TimingsUS divided by 1000 when that key is present, and
    the sum of all values of TimingsUS divided by 1000 otherwise: every value
    is then a number, and the sum is the exact sum when they are integers and
    the interpreter's float sum when a float is among them.  t_norm_ms is the
    [buildFparLinfChain] entry divided by 1000, and 0.0 when that entry, or
    TimingsUS itself, is absent.  Both are binary64 floats. *)
Theorem derive_timings (r : dict) (m : metric) (Hd : derive (JDict r) = Ok m) :
  (forall v, dict_lookup "__total__" (group r "TimingsUS") = Some v ->
     exists f, py_float v = Ok f /\ t_total_ms m = fdiv f f1000) /\
  (dict_lookup "__total__" (group r "TimingsUS") = None ->
     exists s f, py_sum (dict_values (group r "TimingsUS")) = Ok s /\
                 num_to_float s = Ok f /\ t_total_ms m = fdiv f f1000) /\
  (dict_lookup "__total__" (group r "TimingsUS") = None ->
     exists ns f,
       Forall2 (fun v n => json_num v = Ok n) (dict_values (group r "TimingsUS")) ns /\
       total_of ns f /\ t_total_ms m = fdiv f f1000) /\
  (forall v, dict_lookup "buildFparLinfChain" (group r "TimingsUS") = Some v ->
     exists f, py_float v = Ok f /\ t_norm_ms m = fdiv f f1000) /\
  (dict_lookup "buildFparLinfChain" (group r "TimingsUS") = None -> t_norm_ms m = f0) /\
  (dict_lookup "TimingsUS" r = None -> t_total_ms m = f0 /\ t_norm_ms m = f0).
Proof.
  pose proof (derive_ok_inv r m Hd) as (_ & _ & _ & (tv & tf & Htot & Htf & Ht) & (nf & Hnf & Hn) & _).
  assert (Hsum : dict_lookup "__total__" (group r "TimingsUS") = None ->
     exists s f, py_sum (dict_values (group r "TimingsUS")) = Ok s /\
                 num_to_float s = Ok f /\ t_total_ms m = fdiv f f1000).
  { intros Hv. unfold total_us_of, dict_get in Htot. rewrite Hv in Htot.
    bind_inv Htot. injection Htot as <-. rewrite py_float_json_of_num in Htf. eauto. }
  assert (Hnone : dict_lookup "buildFparLinfChain" (group r "TimingsUS") = None ->
                  t_norm_ms m = f0).
  { intros Hv. unfold dict_get in Hnf. rewrite Hv in Hnf. simpl in Hnf.
    injection Hnf as <-. rewrite Hn. reflexivity. }
  split; [|split; [exact Hsum | split; [|split; [|split; [exact Hnone|]]]]].
  - intros v Hv. unfold total_us_of, dict_get in Htot. rewrite Hv in Htot.
    destruct v; try (injection Htot as <-; eauto).
    exfalso. bind_inv Htot.
    destruct (py_sum_null (dict_values (group r "TimingsUS"))) as [e He].
    { unfold dict_values. apply in_map_iff. exists ("__total__", JNull).
      split; [reflexivity | now apply dict_lookup_In]. }
    congruence.
  - intros Hv. destruct (Hsum Hv) as (s & f & Hs & Hf & Hm).
    destruct (py_sum_ok_inv _ _ Hs) as (ns & Hns & Hcase).
    exists ns, f. split; [exact Hns | split; [|exact Hm]].
    unfold total_of. destruct (forallb is_int ns).
    + subst s. cbn [num_to_float] in Hf. now rewrite sum_ints_fold_right in Hf.
    + destruct Hcase as (f' & Hf' & ->). cbn [num_to_float] in Hf. congruence.
  - intros v Hv. unfold dict_get in Hnf. rewrite Hv in Hnf. eauto.
  - intros Habsent.
    assert (Hg : group r "TimingsUS" = []) by (unfold group; now rewrite Habsent).
    rewrite Hg in Hsum, Hnone. split; [|now apply Hnone].
    destruct (Hsum eq_refl) as (s & f & Hs & Hf & ->).
    injection Hs as <-. injection Hf as <-. reflexivity.
Qed.

(** C6. In a derived record the six size fields come from SizesB, every
    entry as an integer: size_fpar_core and size_fpar_norm are the entries at
    the exact keys piop/Fpar/core and piop/Fpar/linf_chain (0 if absent),
    size_fpar_total is the sum of the entries whose key starts with
    piop/Fpar/, size_witness_norm is the sum of the entries at
    piop/witness/linf_chain/M and piop/witness/linf_chain/D (each 0 if
    absent), size_witness_total is the sum of the entries whose key starts
    with piop/witness/, and size_total_bytes is the sum of all entries. *)
Theorem derive_sizes (r : dict) (m : metric) (Hd : derive (JDict r) = Ok m) :
  entry_int (group r "SizesB") "piop/Fpar/core" (size_fpar_core m) /\
  entry_int (group r "SizesB") "piop/Fpar/linf_chain" (size_fpar_norm m) /\
  entries_sum (String.prefix "piop/Fpar/") (group r "SizesB") (size_fpar_total m) /\
  (exists a b,
      entry_int (group r "SizesB") "piop/witness/linf_chain/M" a /\
      entry_int (group r "SizesB") "piop/witness/linf_chain/D" b /\
      size_witness_norm m = a + b) /\
  entries_sum (String.prefix "piop/witness/") (group r "SizesB") (size_witness_total m) /\
  entries_sum (fun _ => true) (group r "SizesB") (size_total_bytes m).
Proof.
  pose proof (derive_ok_inv r m Hd)
    as (_ & _ & _ & _ & _ & (zs & Hzs & Htot) & Hft & Hfc & Hfn & Hwt & (a & b & Ha & Hb & Hw)).
  repeat split.
  - now apply py_int_entry.
  - now apply py_int_entry.
  - now apply sum_prefix_entries.
  - exists a, b. repeat split; [now apply py_int_entry | now apply py_int_entry | exact Hw].
  - now apply sum_prefix_entries.
  - exists zs. split; [|now rewrite Htot, sum_ints_fold_right].
    apply mapM_Forall2 in Hzs. rewrite filter_all. now apply (Forall2_map_snd (fun v x => py_int v = Ok x)).
Qed.

End DeriveClaims.

Section DeriveTotal.
Context {T : TextNumbers}.

Lemma py_int_default_ok (d : dict) (key : string) :
  (forall k v, In (k, v) d -> exists z, py_int v = Ok z) ->
  exists z, py_int (dict_get d key (JInt 0)) = Ok z.
Proof.
  intros H. unfold dict_get. destruct (dict_lookup key d) as [v|] eqn:E.
  - apply (H key). now apply dict_lookup_In.
  - simpl. eauto.
Qed.

Lemma sum_prefix_ok (p : string) (d : dict) :
  (forall k v, In (k, v) d -> exists z, py_int v = Ok z) ->
  exists z, sum_prefix p d = Ok z.
Proof.
  intros H. unfold sum_prefix.
  destruct (mapM_total py_int (dict_values (filter (fun kv => String.prefix p (fst kv)) d)))
    as [zs Hzs].
  - intros v Hv. unfold dict_values in Hv. apply in_map_iff in Hv.
    destruct Hv as ([k v'] & <- & Hin). apply filter_In in Hin. apply (H k). apply Hin.
  - rewrite Hzs. cbn [bind]. eauto.
Qed.

(** The verdicts of a derived record default to false. *)
Lemma derive_verdict_defaults (r : dict) (m : metric) :
  derive (JDict r) = Ok m ->
  (forall key field, In (key, field) verdicts ->
     dict_lookup key (group r "Verdict") = None -> field m = false) /\
  ok_all m = ok_lin m && ok_eq4 m && ok_sum m.
Proof.
  intros Hd. pose proof (derive_ok_inv r m Hd) as (_ & _ & (Hl & He & Hs & Ha) & _).
  split; [|exact Ha].
  intros key field Hin Hnone. unfold verdicts in Hin. cbn [In] in Hin.
  unfold dict_get in Hl, He, Hs.
  repeat destruct Hin as [Hin|Hin]; try contradiction;
    injection Hin as <- <-; rewrite Hnone in *; assumption.
Qed.

Lemma derive_present_ok (r : dict) : present_ok r -> exists m, derive (JDict r) = Ok m.
Proof.
  intros Hp.
  destruct Hp as [Hparams Hgroups Htotal Htimings Hnorm Hsizes].
  assert (Hpar : forall name field, In (name, field) params ->
            exists z, py_int (get_opt (dict_get r "Opts" (JDict [])) r name) = Ok z).
  { intros name field Hin. rewrite get_opt_resolve.
    destruct (resolve r name) as [v|] eqn:E; [now apply (Hparams name field)|].
    simpl. eauto. }
  assert (Hgrp : forall name, In name groups ->
            as_dict (or_empty (dict_get r name (JDict []))) = Ok (group r name)).
  { intros name Hin. apply as_dict_group. split; [now apply Hgroups | reflexivity]. }
  assert (Htot : exists v f, total_us_of (group r "TimingsUS") = Ok v /\ py_float v = Ok f).
  { unfold total_us_of, dict_get.
    destruct (dict_lookup "__total__" (group r "TimingsUS")) as [v|] eqn:E.
    - destruct (Htotal v eq_refl) as (Hnn & f & Hf).
      exists v, f. split; [|exact Hf]. destruct v; congruence.
    - destruct (Htimings eq_refl) as (s & f & Hs & Hf).
      rewrite Hs. cbn [bind]. exists (json_of_num s), f.
      split; [reflexivity | now rewrite py_float_json_of_num]. }
  assert (Hn : exists f,
            py_float (dict_get (group r "TimingsUS") "buildFparLinfChain" (JFloat f0)) = Ok f).
  { unfold dict_get.
    destruct (dict_lookup "buildFparLinfChain" (group r "TimingsUS")) as [v|] eqn:E;
      [now apply Hnorm | simpl; eauto]. }
  assert (Hall : exists zs, mapM py_int (dict_values (group r "SizesB")) = Ok zs).
  { apply mapM_total. intros v Hv. unfold dict_values in Hv. apply in_map_iff in Hv.
    destruct Hv as ([k v'] & <- & Hin). now apply (Hsizes k). }
  unfold derive. cbn [as_dict bind].
  rewrite (Hgrp "Verdict") by (simpl; auto). cbn [bind].
  rewrite (Hgrp "TimingsUS") by (simpl; auto). cbn [bind].
  destruct Htot as (tv & tf & -> & Htf). cbn [bind].
  destruct Hn as (nf & ->). cbn [bind].
  rewrite (Hgrp "SizesB") by (simpl; auto). cbn [bind].
  destruct Hall as (zs & ->). cbn [bind].
  destruct (sum_prefix_ok "piop/Fpar/" _ Hsizes) as (z1 & ->). cbn [bind].
  destruct (py_int_default_ok _ "piop/Fpar/core" Hsizes) as (z2 & ->). cbn [bind].
  destruct (py_int_default_ok _ "piop/Fpar/linf_chain" Hsizes) as (z3 & ->). cbn [bind].
  destruct (sum_prefix_ok "piop/witness/" _ Hsizes) as (z4 & ->). cbn [bind].
  destruct (py_int_default_ok _ "piop/witness/linf_chain/M" Hsizes) as (z5 & ->). cbn [bind].
  destruct (py_int_default_ok _ "piop/witness/linf_chain/D" Hsizes) as (z6 & ->). cbn [bind].
  destruct (Hpar "NCols" Ncols) as (p1 & ->); [simpl; auto|]. cbn [bind].
  destruct (Hpar "Ell" ell) as (p2 & ->); [simpl; auto 10|]. cbn [bind].
  destruct (Hpar "EllPrime" ellp) as (p3 & ->); [simpl; auto 10|]. cbn [bind].
  destruct (Hpar "Rho" rho) as (p4 & ->); [simpl; auto 10|]. cbn [bind].
  destruct (Hpar "Eta" eta) as (p5 & ->); [simpl; auto 10|]. cbn [bind].
  destruct (Hpar "Theta" theta) as (p6 & ->); [simpl; auto 10|]. cbn [bind].
  rewrite Htf. cbn [bind]. eauto.
Qed.

(** C9. [derive] does not fail on what is missing: when every value that is
    present in a record can be coerced, the record derives, whichever groups
    and fields are absent, and a verdict that is absent counts as false; the
    empty mapping derives to six parameters 0, four verdicts false, both
    durations 0.0 and six sizes 0. *)
Theorem derive_total_on_absent (r : dict) (Hp : present_ok r) :
  (exists m, derive (JDict r) = Ok m /\
     (forall key field, In (key, field) verdicts ->
        dict_lookup key (group r "Verdict") = None -> field m = false) /\
     ok_all m = ok_lin m && ok_eq4 m && ok_sum m) /\
  derive (JDict []) = Ok zero_metric.
Proof.
  split; [|reflexivity].
  destruct (derive_present_ok r Hp) as [m Hm].
  exists m. split; [exact Hm | now apply derive_verdict_defaults].
Qed.

Lemma dict_get_remove_other (name k : string) (r : dict) (default : json) :
  k <> name -> dict_get (dict_remove name r) k default = dict_get r k default.
Proof. intros H. unfold dict_get. now rewrite dict_lookup_remove_other. Qed.

Lemma get_opt_remove (name k : string) (r : dict) :
  k <> name -> "Opts" <> name ->
  get_opt (dict_get (dict_remove name r) "Opts" (JDict [])) (dict_remove name r) k
  = get_opt (dict_get r "Opts" (JDict [])) r k.
Proof.
  intros Hk Ho. rewrite (dict_get_remove_other name "Opts") by assumption.
  unfold get_opt. now rewrite (dict_get_remove_other name k) by assumption.
Qed.

Lemma or_empty_remove_null (name g : string) (r : dict) :
  dict_lookup name r = Some JNull ->
  or_empty (dict_get (dict_remove name r) g (JDict []))
  = or_empty (dict_get r g (JDict [])).
Proof.
  intros Hnull. destruct (String.eqb_spec g name) as [->|Hne].
  - unfold dict_get. now rewrite dict_lookup_remove_same, Hnull.
  - now rewrite dict_get_remove_other.
Qed.

(** C10, as the code has it. On a record whose Verdict, TimingsUS or SizesB
    field holds null, [derive] returns exactly what it returns on the record
    without that field: the same metric record, or the same exception.  So it
    returns a metric record whenever the record without the field derives,
    as it does when every value present in it can be coerced. *)
Theorem derive_null_group_as_absent (r : dict) (name : string)
    (Hin : In name groups) (Hnull : dict_lookup name r = Some JNull) :
  derive (JDict r) = derive (JDict (dict_remove name r)) /\
  (forall m, derive (JDict (dict_remove name r)) = Ok m -> derive (JDict r) = Ok m) /\
  (forall e, derive (JDict (dict_remove name r)) = Raise e -> derive (JDict r) = Raise e) /\
  (present_ok (dict_remove name r) ->
   exists m, derive (JDict r) = Ok m /\ derive (JDict (dict_remove name r)) = Ok m).
Proof.
  assert (Heq : derive (JDict r) = derive (JDict (dict_remove name r))).
  2:{ split; [exact Heq|]. split; [intros m Hm; now rewrite Heq|].
      split; [intros e He; now rewrite Heq|].
      intros Hp. destruct (derive_present_ok _ Hp) as [m Hm].
      exists m. split; [now rewrite Heq | exact Hm]. }
  assert (Hne : forall k, In k ["Opts"; "NCols"; "Ell"; "EllPrime"; "Rho"; "Eta"; "Theta"] ->
                          k <> name).
  { intros k Hk ->. unfold groups in Hin. simpl in Hin, Hk.
    repeat destruct Hin as [Hin|Hin]; try contradiction; subst;
      repeat destruct Hk as [Hk|Hk]; try contradiction; discriminate. }
  unfold derive. cbn [as_dict bind].
  rewrite !(or_empty_remove_null name _ r Hnull).
  rewrite !get_opt_remove by (apply Hne; simpl; auto 10).
  reflexivity.
Qed.

End DeriveTotal.

(* ================================================================== *)
(** * fmt_bytes on the sample values *)

(** C1. [fmt_bytes] on the sample values of the specification: 0 and 1023
    are printed in B, and from 1024 on the unit is chosen as specified; but
    the value printed beside KiB, MiB and GiB has been divided by 1024 once
    more than its unit says, so 1024 gives 0.0 KiB and 1048576 gives
    0.0 MiB where 1.0 KiB and 1.0 MiB are specified. *)
Theorem fmt_bytes_sample_values :
  fmt_bytes (NInt 0) = Ok (Some "0 B") /\
  fmt_bytes (NInt 1023) = Ok (Some "1023 B") /\
  fmt_bytes (NInt 1024) = Ok (Some "0.0 KiB") /\
  fmt_bytes (NInt 1048576) = Ok (Some "0.0 MiB") /\
  fmt_bytes (NInt (1024 ^ 3)) = Ok (Some "0.0 GiB") /\
  fmt_bytes (NInt (1024 ^ 4)) = Ok (Some "1.0 GiB").
Proof. repeat split; vm_compute; reflexivity. Qed.

Lemma fmt_bytes_loop_returns_text (us : list string) (n : num) :
  In "GiB" us -> fmt_bytes_loop us n <> Ok None.
Proof.
  revert n; induction us as [|u us IH]; intros n Hin; [contradiction|].
  cbn [fmt_bytes_loop].
  destruct (num_lt_int n 1024 || String.eqb u "GiB") eqn:E.
  - destruct (String.eqb u "B").
    + destruct (num_format_f 0 n); discriminate.
    + destruct (num_truediv n (NInt 1024)) as [q|]; cbn [bind]; [|discriminate].
      destruct (num_format_f 1 q); discriminate.
  - apply orb_false_elim in E. destruct E as [_ E]. apply String.eqb_neq in E.
    destruct Hin as [->|Hin]; [contradiction|].
    destruct (num_truediv n (NInt 1024)) as [q|]; cbn [bind]; [now apply IH | discriminate].
Qed.

(** The loop always ends in a [return]: [fmt_bytes] never gives [None]. *)
Lemma fmt_bytes_returns_text (n : num) : fmt_bytes n <> Ok None.
Proof.
  apply fmt_bytes_loop_returns_text. unfold units. cbn [In]. auto.
Qed.

(** What is printed beside KiB: the loop has divided by 1024 on leaving the
    unit B, and the [return] divides by 1024 again. *)
Lemma fmt_bytes_kib_divides_twice (n : Z) (q : num) :
  1024 <= n ->
  num_truediv (NInt n) (NInt 1024) = Ok q ->
  num_lt_int q 1024 = true ->
  fmt_bytes (NInt n)
  = (q' <- num_truediv q (NInt 1024) ;; s <- num_format_f 1 q' ;; Ok (Some (s ++ " KiB"))).
Proof.
  intros Hn Hq Hlt. unfold fmt_bytes, units. cbn [fmt_bytes_loop].
  change (String.eqb "B" "GiB") with false. change (String.eqb "KiB" "GiB") with false.
  change (String.eqb "KiB" "B") with false.
  assert (Hge : num_lt_int (NInt n) 1024 = false) by (simpl; apply Z.ltb_ge; lia).
  rewrite Hge. cbn [orb]. rewrite Hq. cbn [bind]. rewrite Hlt. reflexivity.
Qed.

(** X2. Below 1024 [fmt_bytes] prints the integer itself, with the unit
    B. *)
Lemma fmt_bytes_below_1024 (n : Z) :
  0 <= n < 1024 -> fmt_bytes (NInt n) = Ok (Some (str_int n ++ " B")).
Proof.
  intros Hn.
  assert (Hall : forallb (fun k : nat =>
                   match fmt_bytes (NInt (Z.of_nat k)) with
                   | Ok (Some s) => String.eqb s (str_int (Z.of_nat k) ++ " B")
                   | _ => false
                   end) (seq 0 1024) = true) by (vm_compute; reflexivity).
  rewrite forallb_forall in Hall.
  specialize (Hall (Z.to_nat n)). rewrite Z2Nat.id in Hall by lia.
  assert (Hin : In (Z.to_nat n) (seq 0 1024)) by (apply in_seq; lia).
  specialize (Hall Hin).
  destruct (fmt_bytes (NInt n)) as [[s|]|]; try discriminate.
  apply String.eqb_eq in Hall. now subst.
Qed.

(* ================================================================== *)
(** * main *)

Section MainFacts.
Context {T : TextNumbers}.



End MainFacts.


(** C10 as stated does not hold: SizesB of [null_sizes_null_ncols] holds
    null, and [derive] fails on the record, with the [TypeError] of
    [int(None)] for its NCols, as it fails on the record without SizesB. *)
Lemma derive_null_group_still_fails :
  In "SizesB" groups /\
  dict_lookup "SizesB" null_sizes_null_ncols = Some JNull /\
  (forall T : TextNumbers,
      derive (JDict null_sizes_null_ncols) = Raise TypeError /\
      derive (JDict (dict_remove "SizesB" null_sizes_null_ncols)) = Raise TypeError).
Proof.
  split; [unfold groups; cbn [In]; auto|].
  split; [reflexivity | intros T; split; reflexivity].
Qed.

(* ================================================================== *)
(** * The theorems at sample inputs *)

Lemma derive_example_row : @derive no_text example_row = Ok example_metric.
Proof. vm_compute. reflexivity. Qed.

Lemma derive_partial_row : @derive no_text (JDict partial_fields) = Ok partial_metric.
Proof. vm_compute. reflexivity. Qed.

Lemma partial_fields_present_ok : @present_ok no_text partial_fields.
Proof.
  constructor.
  - intros name field v Hin Hres. unfold params in Hin. cbn [In] in Hin.
    repeat destruct Hin as [Hin|Hin]; try contradiction;
      injection Hin as <- <-; vm_compute in Hres; try discriminate Hres;
      injection Hres as <-; eexists; reflexivity.
  - intros name Hin. unfold groups in Hin. cbn [In] in Hin.
    repeat destruct Hin as [Hin|Hin]; try contradiction; subst name.
    + exact I.
    + right. eexists. reflexivity.
    + left. reflexivity.
  - intros v Hv. vm_compute in Hv. discriminate Hv.
  - intros _. exists (NInt 500). eexists. split; vm_compute; reflexivity.
  - intros v Hv. vm_compute in Hv. discriminate Hv.
  - intros k v Hin. vm_compute in Hin. contradiction.
Qed.

(** The parameter Rho of [partial_fields] is a top-level field, and NCols is
    inside [Opts]. *)
Lemma derive_param_resolution_witness :
  @derive no_text (JDict partial_fields) = Ok partial_metric /\
  In ("Rho", rho) params /\
  @py_int no_text (JInt 3) = Ok (rho partial_metric).
Proof.
  assert (Hin : In ("Rho", rho) params) by (unfold params; cbn [In]; auto).
  split; [exact derive_partial_row | split; [exact Hin|]].
  apply (proj1 (proj2 (@derive_param_resolution no_text partial_fields partial_metric
                         "Rho" rho derive_partial_row Hin)) (JInt 3)).
  - intros o Ho. injection Ho as <-. reflexivity.
  - reflexivity.
Defined.

(** The timings of the example scenario have no aggregate key. *)
Lemma derive_timings_witness :
  @derive no_text (JDict example_fields) = Ok example_metric /\
  exists ns f,
    Forall2 (fun v n => json_num v = Ok n)
            (dict_values (group example_fields "TimingsUS")) ns /\
    @total_of no_text ns f /\
    t_total_ms example_metric = fdiv f f1000.
Proof.
  split; [exact derive_example_row|].
  apply (proj1 (proj2 (proj2 (@derive_timings no_text example_fields example_metric
                                derive_example_row)))).
  reflexivity.
Defined.

Lemma derive_sizes_witness :
  @derive no_text (JDict example_fields) = Ok example_metric /\
  @entries_sum no_text (String.prefix "piop/Fpar/") (group example_fields "SizesB")
    (size_fpar_total example_metric).
Proof.
  split; [exact derive_example_row|].
  apply (proj1 (proj2 (proj2 (@derive_sizes no_text example_fields example_metric
                                derive_example_row)))).
Defined.

Lemma derive_total_on_absent_witness :
  @present_ok no_text partial_fields /\
  ((exists m, @derive no_text (JDict partial_fields) = Ok m /\
      (forall key field, In (key, field) verdicts ->
         dict_lookup key (group partial_fields "Verdict") = None -> field m = false) /\
      ok_all m = ok_lin m && ok_eq4 m && ok_sum m) /\
   @derive no_text (JDict []) = Ok zero_metric).
Proof.
  split; [exact partial_fields_present_ok|].
  apply (@derive_total_on_absent no_text partial_fields partial_fields_present_ok).
Defined.

Lemma partial_fields_removed_present_ok :
  @present_ok no_text (dict_remove "SizesB" partial_fields).
Proof.
  constructor.
  - intros name field v Hin Hres. unfold params in Hin. cbn [In] in Hin.
    repeat destruct Hin as [Hin|Hin]; try contradiction;
      injection Hin as <- <-; vm_compute in Hres; try discriminate Hres;
      injection Hres as <-; eexists; reflexivity.
  - intros name Hin. unfold groups in Hin. cbn [In] in Hin.
    repeat destruct Hin as [Hin|Hin]; try contradiction; subst name.
    + exact I.
    + right. eexists. reflexivity.
    + exact I.
  - intros v Hv. vm_compute in Hv. discriminate Hv.
  - intros _. exists (NInt 500). eexists. split; vm_compute; reflexivity.
  - intros v Hv. vm_compute in Hv. discriminate Hv.
  - intros k v Hin. vm_compute in Hin. contradiction.
Qed.

(** SizesB of [partial_fields] is null: the record derives as the record
    without SizesB does, to [partial_metric]. *)
Lemma derive_null_group_as_absent_witness :
  In "SizesB" groups /\
  dict_lookup "SizesB" partial_fields = Some JNull /\
  @derive no_text (JDict partial_fields)
  = @derive no_text (JDict (dict_remove "SizesB" partial_fields)) /\
  @derive no_text (JDict partial_fields) = Ok partial_metric /\
  exists m, @derive no_text (JDict partial_fields) = Ok m /\
            @derive no_text (JDict (dict_remove "SizesB" partial_fields)) = Ok m.
Proof.
  assert (Hin : In "SizesB" groups) by (unfold groups; cbn [In]; auto).
  assert (Hnull : dict_lookup "SizesB" partial_fields = Some JNull) by reflexivity.
  destruct (@derive_null_group_as_absent no_text partial_fields "SizesB" Hin Hnull)
    as (Heq & _ & _ & Hok).
  split; [exact Hin | split; [exact Hnull | split; [exact Heq|]]].
  split; [exact derive_partial_row | exact (Hok partial_fields_removed_present_ok)].
Defined.




(* ================================================================== *)
(** * More on fmt_bytes *)

Lemma float_1024 : float_of_int 1024 = Ok (float_of_dyadic 1024 0).
Proof. reflexivity. Qed.

(** Dividing a float by the integer 1024 never raises. *)
Lemma num_truediv_float_1024 (f : float) :
  num_truediv (NFloat f) (NInt 1024) = Ok (NFloat (fdiv f (float_of_dyadic 1024 0))).
Proof. reflexivity. Qed.

(** Dividing an integer by 1024 gives a float or raises [OverflowError]. *)
Lemma num_truediv_int_1024 (n : Z) :
  (exists q, num_truediv (NInt n) (NInt 1024) = Ok (NFloat q)) \/
  num_truediv (NInt n) (NInt 1024) = Raise OverflowError.
Proof.
  unfold num_truediv. change (1024 =? 0) with false. cbv iota.
  destruct (is_infinite (fdiv (raw_int n) (raw_int 1024))); eauto.
Qed.

Lemma fmt_bytes_loop_cons (u : string) (us : list string) (n : num) :
  fmt_bytes_loop (u :: us) n
  = if num_lt_int n 1024 || String.eqb u "GiB" then
      if String.eqb u "B" then
        s <- num_format_f 0 n ;; Ok (Some (s ++ " " ++ u))
      else
        q <- num_truediv n (NInt 1024) ;;
        s <- num_format_f 1 q ;; Ok (Some (s ++ " " ++ u))
    else
      n' <- num_truediv n (NInt 1024) ;; fmt_bytes_loop us n'.
Proof. reflexivity. Qed.

Lemma fmt_bytes_loop_float (us : list string) (f : float) :
  In "GiB" us -> exists s, fmt_bytes_loop us (NFloat f) = Ok (Some s).
Proof.
  revert f; induction us as [|u us IH]; intros f Hin; [contradiction|].
  cbn [fmt_bytes_loop]. rewrite num_truediv_float_1024. cbn [bind].
  destruct (num_lt_int (NFloat f) 1024 || String.eqb u "GiB") eqn:E.
  - destruct (String.eqb u "B"); cbn; eauto.
  - apply orb_false_elim in E. destruct E as [_ E]. apply String.eqb_neq in E.
    destruct Hin as [->|Hin]; [contradiction | now apply IH].
Qed.

(** X1. [fmt_bytes] on an integer returns a text or raises [OverflowError]
    (the integer is too large for a float), and nothing else; on a float it
    always returns a text. *)
Theorem fmt_bytes_text_or_overflow :
  (forall n : Z,
      (exists s, fmt_bytes (NInt n) = Ok (Some s)) \/
      fmt_bytes (NInt n) = Raise OverflowError) /\
  (forall f : float, exists s, fmt_bytes (NFloat f) = Ok (Some s)).
Proof.
  split.
  - intros n. unfold fmt_bytes, units. rewrite fmt_bytes_loop_cons.
    change (String.eqb "B" "GiB") with false. change (String.eqb "B" "B") with true.
    rewrite orb_false_r.
    destruct (num_lt_int (NInt n) 1024).
    + unfold num_format_f, num_to_float, float_of_int.
      destruct (is_infinite (float_of_dyadic n 0)); cbn [bind]; eauto.
    + destruct (num_truediv_int_1024 n) as [[q ->]| ->]; cbn [bind]; [|now right].
      left. apply fmt_bytes_loop_float. cbn [In]. auto.
  - intros f. apply fmt_bytes_loop_float. unfold units. cbn [In]. auto.
Qed.

Lemma div_1024_S (k : nat) (n : num) :
  div_1024 (S k) n = (q <- num_truediv n (NInt 1024) ;; div_1024 k q).
Proof. reflexivity. Qed.

(** A text the loop returns at the unit [u], the [j]-th of [us]: the number
    before the unit is [n] divided by 1024 once for each unit passed, and
    once more when [u] is not B. *)
Lemma fmt_bytes_loop_shape (us : list string) (n : num) (s : string) :
  fmt_bytes_loop us n = Ok (Some s) ->
  exists j u q t,
    nth_error us j = Some u /\
    div_1024 (if String.eqb u "B" then j else S j) n = Ok q /\
    num_format_f (if String.eqb u "B" then 0 else 1) q = Ok t /\
    s = t ++ " " ++ u.
Proof.
  revert n; induction us as [|u us IH]; intros n H; [discriminate|].
  rewrite fmt_bytes_loop_cons in H.
  destruct (num_lt_int n 1024 || String.eqb u "GiB").
  - destruct (String.eqb u "B") eqn:EB.
    + bind_inv H. injection H as <-. exists O, u, n, a. rewrite EB.
      repeat split; assumption.
    + bind_inv H. bind_inv H. injection H as <-. exists O, u, a, a0. rewrite EB.
      rewrite div_1024_S. match goal with E : num_truediv _ _ = _ |- _ => rewrite E end.
      repeat split; assumption.
  - bind_inv H. destruct (IH _ H) as (j & u' & q & t & Hnth & Hdiv & Hfmt & ->).
    exists (S j), u', q, t.
    split; [exact Hnth|]. split; [|split; [exact Hfmt | reflexivity]].
    match goal with E : num_truediv _ _ = _ |- _ => rename E into Hq end.
    destruct (String.eqb u' "B"); rewrite div_1024_S, Hq; exact Hdiv.
Qed.

(** X3. A text [fmt_bytes] returns for an integer [n] is a number, a space
    and one of the units B, KiB, MiB, GiB, and the unit is B exactly when
    [n] is below 1024.  Beside B the number is [n] itself, printed as a
    float without decimals; beside the [k]-th unit after B it is [n]
    divided by 1024 [k + 1] times, printed with one decimal. *)
Theorem fmt_bytes_unit (n : Z) (s : string) (H : fmt_bytes (NInt n) = Ok (Some s)) :
  exists t u,
    s = t ++ " " ++ u /\ In u units /\ (u = "B" <-> n < 1024) /\
    exists k q,
      nth_error units k = Some u /\
      div_1024 (if String.eqb u "B" then 0 else S k) (NInt n) = Ok q /\
      num_format_f (if String.eqb u "B" then 0 else 1) q = Ok t.
Proof.
  unfold fmt_bytes, units in H. rewrite fmt_bytes_loop_cons in H.
  change (String.eqb "B" "GiB") with false in H. change (String.eqb "B" "B") with true in H.
  rewrite orb_false_r in H. cbn [num_lt_int] in H.
  destruct (Z.ltb_spec n 1024) as [Hlt|Hge].
  - bind_inv H. injection H as <-. exists a, "B".
    split; [reflexivity|]. split; [unfold units; cbn [In]; auto|]. split; [tauto|].
    exists O, (NInt n). change (String.eqb "B" "B") with true.
    repeat split; assumption.
  - bind_inv H. rename a into n'.
    match goal with E : num_truediv _ _ = _ |- _ => rename E into Hq end.
    destruct (fmt_bytes_loop_shape _ _ _ H) as (j & u & q & t & Hnth & Hdiv & Hfmt & ->).
    assert (Hin : In u ["KiB"; "MiB"; "GiB"]) by now apply (nth_error_In _ j).
    assert (Hne : String.eqb u "B" = false).
    { cbn [In] in Hin. repeat destruct Hin as [Hin|Hin]; try contradiction;
        subst u; reflexivity. }
    rewrite Hne in Hdiv, Hfmt.
    exists t, u. split; [reflexivity|]. split; [unfold units; now right|].
    split; [split; [intros ->; discriminate Hne | lia]|].
    exists (S j), q. rewrite Hne. split; [exact Hnth|]. split; [|exact Hfmt].
    now rewrite div_1024_S, Hq.
Qed.

(* ================================================================== *)
(** * More on derive *)

Lemma prefixes_disjoint (k : string) :
  String.prefix "piop/Fpar/" k = true -> String.prefix "piop/witness/" k = false.
Proof.
  intros H.
  destruct k as [|a1 [|a2 [|a3 [|a4 [|a5 [|a6 k]]]]]]; cbn [String.prefix] in *;
    try reflexivity;
    repeat match type of H with
           | context [ascii_dec ?a ?b] =>
               destruct (ascii_dec a b) as [<-|]; [|discriminate H]
           end;
    try discriminate H;
    repeat match goal with
           | |- context [ascii_dec ?a ?b] =>
               destruct (ascii_dec a b); try discriminate; try reflexivity
           end.
Qed.

Section DeriveMore.
Context {T : TextNumbers}.

Lemma get_opt_ext (r1 r2 : dict) (key : string) :
  dict_lookup "Opts" r1 = dict_lookup "Opts" r2 ->
  dict_lookup key r1 = dict_lookup key r2 ->
  get_opt (dict_get r1 "Opts" (JDict [])) r1 key
  = get_opt (dict_get r2 "Opts" (JDict [])) r2 key.
Proof.
  intros Ho Hk. unfold get_opt, dict_get. now rewrite Ho, Hk.
Qed.

(** X4. [derive] reads ten top-level keys and nothing else: two records
    that agree on these keys derive alike, whatever other fields they
    carry. *)
Theorem derive_reads_ten_keys (r1 r2 : dict)
    (H : forall k, In k derive_keys -> dict_lookup k r1 = dict_lookup k r2) :
  derive (JDict r1) = derive (JDict r2).
Proof.
  assert (Hg : forall k d, In k derive_keys -> dict_get r1 k d = dict_get r2 k d).
  { intros k d Hk. unfold dict_get. now rewrite (H k Hk). }
  unfold derive. cbn [as_dict bind].
  rewrite (get_opt_ext r1 r2 "NCols"), (get_opt_ext r1 r2 "Ell"),
    (get_opt_ext r1 r2 "EllPrime"), (get_opt_ext r1 r2 "Rho"),
    (get_opt_ext r1 r2 "Eta"), (get_opt_ext r1 r2 "Theta")
    by (apply H; unfold derive_keys; cbn [In]; auto 12).
  rewrite (Hg "Verdict"), (Hg "TimingsUS"), (Hg "SizesB")
    by (unfold derive_keys; cbn [In]; auto 12).
  reflexivity.
Qed.

Lemma as_dict_raises (v : json) (e : exn) : as_dict v = Raise e -> e = AttributeError.
Proof. destruct v; cbn; congruence. Qed.

Lemma as_dict_group_bad (r : dict) (name : string) :
  ~ group_ok r name ->
  as_dict (or_empty (dict_get r name (JDict []))) = Raise AttributeError.
Proof.
  intros Hbad.
  destruct (as_dict (or_empty (dict_get r name (JDict [])))) as [d|e] eqn:E.
  - apply as_dict_group in E. destruct E as [Hok _]. contradiction.
  - now rewrite (as_dict_raises _ _ E).
Qed.

(** X5. A group that is present, counts as true and is no mapping makes
    [derive] raise: [AttributeError] for Verdict and TimingsUS; for SizesB
    an exception raised no later than the [AttributeError] of the group. *)
Theorem derive_group_not_mapping (r : dict) (name : string)
    (Hin : In name groups) (Hbad : ~ group_ok r name) :
  exists e, derive (JDict r) = Raise e /\ (name <> "SizesB" -> e = AttributeError).
Proof.
  pose proof (as_dict_group_bad r name Hbad) as Hraise.
  unfold groups in Hin. cbn [In] in Hin.
  unfold derive. cbn [as_dict bind].
  destruct Hin as [<-|[<-|[<-|[]]]].
  - rewrite Hraise. cbn [bind]. eauto.
  - destruct (as_dict (or_empty (dict_get r "Verdict" (JDict [])))) as [d|e] eqn:E;
      cbn [bind].
    + rewrite Hraise. cbn [bind]. eauto.
    + exists e. split; [reflexivity|]. intros _. now apply (as_dict_raises _ _ E).
  - rewrite Hraise.
    repeat match goal with
           | |- exists e, bind (Raise ?x) _ = _ /\ _ =>
               cbn [bind]; exists x; split; [reflexivity | congruence]
           | |- exists e, bind ?c _ = _ /\ _ =>
               destruct c; cbn [bind]; [|eexists; split; [reflexivity | congruence]]
           end.
    exists AttributeError. split; [reflexivity | congruence].
Qed.

(** The relation "each value coerces to this integer" picks one list of
    integers. *)
Lemma ints_functional (l : dict) (zs zs' : list Z) :
  Forall2 (fun kv x => py_int (snd kv) = Ok x) l zs ->
  Forall2 (fun kv x => py_int (snd kv) = Ok x) l zs' ->
  zs = zs'.
Proof.
  intros H; revert zs'; induction H as [|kv z l zs Hz H IH]; intros zs' H'; inversion H'; subst.
  - reflexivity.
  - f_equal; [congruence | now apply IH].
Qed.

Lemma entries_sum_functional (p : string -> bool) (sizes : dict) (z z' : Z) :
  entries_sum p sizes z -> entries_sum p sizes z' -> z = z'.
Proof.
  intros (zs & H & ->) (zs' & H' & ->). now rewrite (ints_functional _ _ _ H H').
Qed.

Lemma entries_sum_nil (p : string -> bool) : entries_sum p [] 0.
Proof. exists []. split; [constructor | reflexivity]. Qed.

Lemma entries_sum_cons (p : string -> bool) (k : string) (v : json) (sizes : dict) (x z : Z) :
  py_int v = Ok x -> entries_sum p sizes z ->
  entries_sum p ((k, v) :: sizes) (if p k then x + z else z).
Proof.
  intros Hx (zs & H & ->). unfold entries_sum. cbn [filter fst].
  destruct (p k).
  - exists (x :: zs). split; [now constructor | reflexivity].
  - exists zs. split; [assumption | reflexivity].
Qed.

(** The sum of all entries splits along two disjoint sets of keys. *)
Lemma entries_sum_split (p q : string -> bool) (sizes : dict) (total : Z) :
  (forall k, p k = true -> q k = false) ->
  entries_sum (fun _ => true) sizes total ->
  exists a b c,
    entries_sum p sizes a /\ entries_sum q sizes b /\
    entries_sum (fun k => negb (p k) && negb (q k)) sizes c /\
    total = a + b + c.
Proof.
  intros Hpq (zs & H & ->). rewrite filter_all in H.
  induction H as [|[k v] x sizes zs Hx H IH].
  - exists 0, 0, 0. repeat split; apply entries_sum_nil.
  - destruct IH as (a & b & c & Ha & Hb & Hc & Heq).
    cbn [snd] in Hx.
    exists (if p k then x + a else a), (if q k then x + b else b),
      (if negb (p k) && negb (q k) then x + c else c).
    repeat split; try now apply entries_sum_cons.
    cbn [fold_right]. rewrite Heq.
    destruct (p k) eqn:Ep; [rewrite (Hpq k Ep)|destruct (q k)]; cbn; lia.
Qed.

(** X6. In a derived record the total size is the sum of the three disjoint
    parts of SizesB: the entries under piop/Fpar/, the entries under
    piop/witness/ and the entries under neither prefix. *)
Theorem derive_size_partition (r : dict) (m : metric) (Hd : derive (JDict r) = Ok m) :
  exists rest,
    entries_sum other_key (group r "SizesB") rest /\
    size_total_bytes m = size_fpar_total m + size_witness_total m + rest.
Proof.
  pose proof (derive_ok_inv r m Hd)
    as (_ & _ & _ & _ & _ & (zs & Hzs & Htot) & Hft & _ & _ & Hwt & _).
  apply sum_prefix_entries in Hft, Hwt.
  assert (Hall : entries_sum (fun _ => true) (group r "SizesB") (size_total_bytes m)).
  { exists zs. split; [|now rewrite Htot, sum_ints_fold_right].
    apply mapM_Forall2 in Hzs. rewrite filter_all.
    now apply (Forall2_map_snd (fun v x => py_int v = Ok x)). }
  destruct (entries_sum_split (String.prefix "piop/Fpar/") (String.prefix "piop/witness/")
              _ _ prefixes_disjoint Hall) as (a & b & c & Ha & Hb & Hc & Heq).
  exists c. split; [exact Hc|].
  now rewrite (entries_sum_functional _ _ _ _ Hft Ha), (entries_sum_functional _ _ _ _ Hwt Hb).
Qed.

End DeriveMore.

Lemma sum_nonneg (zs : list Z) : Forall (fun z => 0 <= z) zs -> 0 <= fold_right Z.add 0 zs.
Proof. induction 1; cbn; lia. Qed.

Section DeriveBounds.
Context {T : TextNumbers}.

Lemma dict_lookup_filter (p : string -> bool) (key : string) (d : dict) :
  p key = true ->
  dict_lookup key (filter (fun kv => p (fst kv)) d) = dict_lookup key d.
Proof.
  intros Hp. induction d as [|[k v] d IH]; [reflexivity|].
  cbn [filter fst]. destruct (p k) eqn:Ek; cbn [dict_lookup].
  - now rewrite IH.
  - destruct (String.eqb_spec key k) as [->|]; [congruence | exact IH].
Qed.

Lemma ints_nonneg (d : dict) (zs : list Z) :
  Forall2 (fun kv x => py_int (snd kv) = Ok x) d zs ->
  (forall k v z, In (k, v) d -> py_int v = Ok z -> 0 <= z) ->
  Forall (fun z => 0 <= z) zs.
Proof.
  induction 1 as [|[k v] x d zs Hx H IH]; intros Hpos; constructor.
  - apply (Hpos k v); [now left | exact Hx].
  - apply IH. intros k' v' z Hin. apply (Hpos k' v'). now right.
Qed.

(** An entry that is not negative is at most the sum of entries that are
    not negative. *)
Lemma entry_le_sum (d : dict) (zs : list Z) (key : string) (a : Z) :
  Forall2 (fun kv x => py_int (snd kv) = Ok x) d zs ->
  Forall (fun z => 0 <= z) zs ->
  entry_int d key a ->
  0 <= a <= fold_right Z.add 0 zs.
Proof.
  unfold entry_int. induction 1 as [|[k v] x d zs Hx H IH]; intros Hpos Ha.
  - cbn in Ha. subst. cbn. lia.
  - inversion Hpos as [|? ? Hx0 Hpos']; subst.
    pose proof (sum_nonneg zs Hpos') as Hs.
    cbn [dict_lookup] in Ha. cbn [fold_right snd] in *.
    destruct (String.eqb key k).
    + assert (a = x) by congruence. lia.
    + specialize (IH Hpos' Ha). lia.
Qed.

(** The same for the entries under two different keys. *)
Lemma two_entries_le_sum (d : dict) (zs : list Z) (k1 k2 : string) (a b : Z) :
  k1 <> k2 ->
  Forall2 (fun kv x => py_int (snd kv) = Ok x) d zs ->
  Forall (fun z => 0 <= z) zs ->
  entry_int d k1 a -> entry_int d k2 b ->
  a + b <= fold_right Z.add 0 zs.
Proof.
  intros Hne H. induction H as [|[k v] x d zs Hx H IH]; intros Hpos Ha Hb.
  - unfold entry_int in Ha, Hb. cbn in Ha, Hb. subst. cbn. lia.
  - inversion Hpos as [|? ? Hx0 Hpos']; subst.
    assert (Hrest : forall key c, entry_int d key c -> 0 <= c <= fold_right Z.add 0 zs)
      by (intros key c Hc; now apply (entry_le_sum d zs key c)).
    unfold entry_int in Ha, Hb, IH, Hrest. cbn [dict_lookup] in Ha, Hb.
    cbn [fold_right snd] in *.
    destruct (String.eqb_spec k1 k) as [E1|N1]; destruct (String.eqb_spec k2 k) as [E2|N2].
    + congruence.
    + assert (a = x) by congruence. specialize (Hrest k2 b Hb). lia.
    + assert (b = x) by congruence. specialize (Hrest k1 a Ha). lia.
    + specialize (IH Hpos' Ha Hb). lia.
Qed.

Lemma entry_int_filter (p : string -> bool) (d : dict) (key : string) (a : Z) :
  p key = true -> entry_int d key a -> entry_int (filter (fun kv => p (fst kv)) d) key a.
Proof. intros Hp. unfold entry_int. now rewrite dict_lookup_filter. Qed.

Lemma filter_nonneg (p : string -> bool) (d : dict) :
  (forall k v z, In (k, v) d -> py_int v = Ok z -> 0 <= z) ->
  forall k v z, In (k, v) (filter (fun kv => p (fst kv)) d) -> py_int v = Ok z -> 0 <= z.
Proof.
  intros Hpos k v z Hin. apply filter_In in Hin. apply (Hpos k v). apply Hin.
Qed.

(** The size fields of a derived record, as entries and sums of SizesB. *)
Lemma derive_size_entries (r : dict) (m : metric) :
  derive (JDict r) = Ok m ->
  entry_int (group r "SizesB") "piop/Fpar/core" (size_fpar_core m) /\
  entry_int (group r "SizesB") "piop/Fpar/linf_chain" (size_fpar_norm m) /\
  entries_sum (String.prefix "piop/Fpar/") (group r "SizesB") (size_fpar_total m) /\
  (exists a b,
      entry_int (group r "SizesB") "piop/witness/linf_chain/M" a /\
      entry_int (group r "SizesB") "piop/witness/linf_chain/D" b /\
      size_witness_norm m = a + b) /\
  entries_sum (String.prefix "piop/witness/") (group r "SizesB") (size_witness_total m) /\
  entries_sum (fun _ => true) (group r "SizesB") (size_total_bytes m).
Proof.
  intros Hd.
  pose proof (derive_ok_inv r m Hd)
    as (_ & _ & _ & _ & _ & (zs & Hzs & Htot) & Hft & Hfc & Hfn & Hwt & (a & b & Ha & Hb & Hw)).
  repeat split; try (now apply py_int_entry); try (now apply sum_prefix_entries).
  - exists a, b. repeat split; [now apply py_int_entry | now apply py_int_entry | exact Hw].
  - exists zs. split; [|now rewrite Htot, sum_ints_fold_right].
    apply mapM_Forall2 in Hzs. rewrite filter_all.
    now apply (Forall2_map_snd (fun v x => py_int v = Ok x)).
Qed.

(** X7. When no entry of SizesB is negative, the size fields of a derived
    record are ordered as their names say: core plus norm is at most the
    Fpar total, the witness norm is at most the witness total, and the two
    totals together are at most the total of all sizes. *)
Theorem derive_size_bounds (r : dict) (m : metric)
    (Hd : derive (JDict r) = Ok m)
    (Hpos : forall k v z, In (k, v) (group r "SizesB") -> py_int v = Ok z -> 0 <= z) :
  0 <= size_fpar_core m /\ 0 <= size_fpar_norm m /\
  size_fpar_core m + size_fpar_norm m <= size_fpar_total m /\
  0 <= size_witness_norm m <= size_witness_total m /\
  size_fpar_total m + size_witness_total m <= size_total_bytes m.
Proof.
  destruct (derive_size_entries r m Hd)
    as (Hc & Hn & (zf & Hzf & Hf) & (a & b & Ha & Hb & Hw) & (zw & Hzw & Hwt) & Hall).
  pose proof (ints_nonneg _ _ Hzf (filter_nonneg _ _ Hpos)) as Pf.
  pose proof (ints_nonneg _ _ Hzw (filter_nonneg _ _ Hpos)) as Pw.
  pose proof (entry_le_sum _ _ _ _ Hzf Pf
                (entry_int_filter (String.prefix "piop/Fpar/") _ "piop/Fpar/core" _ eq_refl Hc)) as B1.
  pose proof (entry_le_sum _ _ _ _ Hzf Pf
                (entry_int_filter (String.prefix "piop/Fpar/") _ "piop/Fpar/linf_chain" _ eq_refl Hn)) as B2.
  assert (B3 : size_fpar_core m + size_fpar_norm m <= fold_right Z.add 0 zf).
  { apply (two_entries_le_sum
             (filter (fun kv => String.prefix "piop/Fpar/" (fst kv)) (group r "SizesB"))
             zf "piop/Fpar/core" "piop/Fpar/linf_chain");
      [discriminate | assumption | assumption | |];
      now apply (entry_int_filter (String.prefix "piop/Fpar/")). }
  pose proof (entry_le_sum _ _ _ _ Hzw Pw
                (entry_int_filter (String.prefix "piop/witness/") _ "piop/witness/linf_chain/M" _ eq_refl Ha)) as B4.
  pose proof (entry_le_sum _ _ _ _ Hzw Pw
                (entry_int_filter (String.prefix "piop/witness/") _ "piop/witness/linf_chain/D" _ eq_refl Hb)) as B5.
  assert (B6 : a + b <= fold_right Z.add 0 zw).
  { apply (two_entries_le_sum
             (filter (fun kv => String.prefix "piop/witness/" (fst kv)) (group r "SizesB"))
             zw "piop/witness/linf_chain/M" "piop/witness/linf_chain/D");
      [discriminate | assumption | assumption | |];
      now apply (entry_int_filter (String.prefix "piop/witness/")). }
  destruct (entries_sum_split (String.prefix "piop/Fpar/") (String.prefix "piop/witness/")
              _ _ prefixes_disjoint Hall) as (x & y & c & Hx & Hy & (zc & Hzc & Hc') & Heq).
  pose proof (ints_nonneg _ _ Hzc
                (filter_nonneg
                   (fun k => negb (String.prefix "piop/Fpar/" k)
                             && negb (String.prefix "piop/witness/" k)) _ Hpos)) as Pc.
  pose proof (sum_nonneg zc Pc) as Bc.
  assert (Ex : size_fpar_total m = x)
    by (apply (entries_sum_functional (String.prefix "piop/Fpar/") (group r "SizesB"));
        [exists zf; auto | exact Hx]).
  assert (Ey : size_witness_total m = y)
    by (apply (entries_sum_functional (String.prefix "piop/witness/") (group r "SizesB"));
        [exists zw; auto | exact Hy]).
  lia.
Qed.

(** X8. In a derived record [ok_all] is true exactly when each of OkLin,
    OkEq4 and OkSum is present in Verdict with a value that counts as
    true. *)
Theorem derive_ok_all_iff (r : dict) (m : metric) (Hd : derive (JDict r) = Ok m) :
  ok_all m = true <->
  (forall key field, In (key, field) verdicts ->
     exists v, dict_lookup key (group r "Verdict") = Some v /\ py_bool v = true).
Proof.
  pose proof (derive_ok_inv r m Hd) as (_ & _ & (Hl & He & Hs & Ha) & _).
  rewrite Ha, Hl, He, Hs. unfold dict_get, verdicts. split.
  - intros H. apply andb_prop in H. destruct H as [H H3].
    apply andb_prop in H. destruct H as [H1 H2].
    intros key field Hin. cbn [In] in Hin.
    repeat destruct Hin as [Hin|Hin]; try contradiction; injection Hin as <- <-.
    + destruct (dict_lookup "OkLin" (group r "Verdict")); [eauto | discriminate].
    + destruct (dict_lookup "OkEq4" (group r "Verdict")); [eauto | discriminate].
    + destruct (dict_lookup "OkSum" (group r "Verdict")); [eauto | discriminate].
  - intros H.
    destruct (H "OkLin" ok_lin) as (v1 & -> & ->); [cbn [In]; auto|].
    destruct (H "OkEq4" ok_eq4) as (v2 & -> & ->); [cbn [In]; auto|].
    destruct (H "OkSum" ok_sum) as (v3 & -> & ->); [cbn [In]; auto|].
    reflexivity.
Qed.

(** X9. With integer timings and no aggregate key, the total of a derived
    record is the exact integer sum of the timings, turned into a float once
    and divided by 1000: the order of the phases does not matter. *)
Theorem derive_total_of_int_timings (r : dict) (m : metric) (zs : list Z)
    (Hd : derive (JDict r) = Ok m)
    (Hnone : dict_lookup "__total__" (group r "TimingsUS") = None)
    (Hints : dict_values (group r "TimingsUS") = map JInt zs) :
  exists f, float_of_int (fold_right Z.add 0 zs) = Ok f /\ t_total_ms m = fdiv f f1000.
Proof.
  pose proof (derive_ok_inv r m Hd) as (_ & _ & _ & (v & f & Htot & Hf & Ht) & _).
  unfold total_us_of, dict_get in Htot. rewrite Hnone, Hints in Htot.
  rewrite py_sum_ints in Htot. cbn [bind json_of_num] in Htot.
  injection Htot as <-. exists f. split; [exact Hf | exact Ht].
Qed.

End DeriveBounds.

(* ================================================================== *)
(** * More on the loader, the renderers and main *)

Lemma Permutation_filter {A : Type} (f : A -> bool) (l l' : list A) :
  Permutation l l' -> Permutation (filter f l) (filter f l').
Proof.
  induction 1 as [|x l l' H IH|x y l|l l' l'' H IH H' IH']; cbn [filter].
  - constructor.
  - destruct (f x); [now constructor | assumption].
  - destruct (f x), (f y); try apply Permutation_refl. apply perm_swap.
  - now apply perm_trans with (filter f l').
Qed.

Lemma filter_eqb_repeat (k : string) (l : list string) :
  filter (fun y => String.eqb y k) l
  = repeat k (List.length (filter (fun y => String.eqb y k) l)).
Proof.
  induction l as [|x l IH]; [reflexivity|]. cbn [filter].
  destruct (String.eqb_spec x k) as [->|]; [|exact IH].
  cbn [List.length repeat]. now rewrite <- IH.
Qed.

Lemma string_ltb_antisym (a b : string) :
  String.ltb a b = false -> String.ltb b a = false -> a = b.
Proof.
  unfold String.ltb. rewrite (String.compare_antisym b a).
  destruct (String.compare a b) eqn:E; cbn; try discriminate.
  intros _ _. now apply String.compare_eq_iff.
Qed.

(** Sorting paths forgets the order in which they were listed. *)
Lemma sorted_paths_perm (l l' : list string) :
  Permutation l l' ->
  sorted (fun p : string => p) String.ltb l = sorted (fun p : string => p) String.ltb l'.
Proof.
  intros H.
  apply (sorted_is_the_stable_sort (fun p : string => p) String.ltb
           string_ltb_asym string_geb_trans String.eqb String.eqb_eq string_ltb_antisym).
  - apply sorted_strongly; [exact string_ltb_asym | exact string_geb_trans].
  - intros k.
    rewrite (sorted_stable (fun p : string => p) String.ltb string_ltb_asym
               String.eqb String.eqb_eq).
    rewrite (filter_eqb_repeat k l), (filter_eqb_repeat k l').
    f_equal. apply Permutation_length. now apply Permutation_filter.
Qed.

(** X10. The records [load_rows] returns and the warnings it prints do not
    depend on the order in which the directory lists its files. *)
Theorem load_rows_listing_order (w w' : world) (input_dir : string)
    (Hread : forall path, read_json w path = read_json w' path)
    (Hglob : Permutation (glob w (os_path_join input_dir "*.json"))
                         (glob w' (os_path_join input_dir "*.json"))) :
  load_rows w input_dir = load_rows w' input_dir.
Proof.
  rewrite !load_rows_eq. unfold sorted_paths.
  rewrite (sorted_paths_perm _ _ Hglob).
  f_equal; [|f_equal]; apply flat_map_ext; intros path;
    unfold spec_warnings, spec_accepted; now rewrite Hread.
Qed.

Lemma rows_sorted_strongly (rows : list metric) :
  StronglySorted (fun a b => lex_le (sort_key a) (sort_key b)) (rows_sorted rows).
Proof.
  eapply StronglySorted_impl;
    [|apply (sorted_strongly sort_key tuple_ltb tuple_ltb_asym tuple_geb_trans)].
  intros a b H. now apply tuple_ltb_lex_le.
Qed.

Lemma rows_sorted_filter (rows : list metric) (k : list Z) :
  filter (fun r => tuple_eqb (sort_key r) k) (rows_sorted rows)
  = filter (fun r => tuple_eqb (sort_key r) k) rows.
Proof.
  apply (sorted_stable sort_key tuple_ltb tuple_ltb_asym tuple_eqb tuple_eqb_spec).
Qed.

Lemma rows_sorted_length (rows : list metric) : List.length (rows_sorted rows) = List.length rows.
Proof. apply Permutation_length. apply sorted_perm. Qed.

(** Under pairwise distinct keys at most one record has a given key. *)
Lemma filter_key_short (rows : list metric) (k : list Z) :
  NoDup (map sort_key rows) ->
  (List.length (filter (fun r => tuple_eqb (sort_key r) k) rows) <= 1)%nat.
Proof.
  induction rows as [|r rows IH]; intros Hnd; [cbn; lia|].
  cbn [map] in Hnd. inversion Hnd as [|? ? Hnotin Hnd']; subst.
  cbn [filter]. destruct (tuple_eqb (sort_key r) k) eqn:E; [|now apply IH].
  apply tuple_eqb_spec in E. subst k.
  assert (Hnone : filter (fun r' => tuple_eqb (sort_key r') (sort_key r)) rows = []).
  { destruct (filter (fun r' => tuple_eqb (sort_key r') (sort_key r)) rows) as [|x l] eqn:F;
      [reflexivity|].
    exfalso. apply Hnotin.
    assert (Hx : In x (filter (fun r' => tuple_eqb (sort_key r') (sort_key r)) rows))
      by (rewrite F; now left).
    apply filter_In in Hx. destruct Hx as [Hx Hk]. apply tuple_eqb_spec in Hk.
    rewrite <- Hk. now apply in_map. }
  rewrite Hnone. cbn. lia.
Qed.

Lemma short_perm_eq {A : Type} (l l' : list A) :
  (List.length l <= 1)%nat -> Permutation l l' -> l = l'.
Proof.
  intros Hlen H. destruct l as [|x [|y l]]; cbn in Hlen; try lia.
  - apply Permutation_nil in H. now subst.
  - apply Permutation_length_1_inv in H. now subst.
Qed.

Lemma rows_sorted_perm_distinct (rows rows' : list metric) :
  Permutation rows rows' -> NoDup (map sort_key rows) ->
  rows_sorted rows' = rows_sorted rows.
Proof.
  intros Hperm Hnd. apply rows_sorted_unique; [apply rows_sorted_strongly|].
  intros k. rewrite rows_sorted_filter. symmetry.
  apply short_perm_eq; [now apply filter_key_short | now apply Permutation_filter].
Qed.

(** X15. When no two records have the same key, the two reports do not
    depend on the order in which the records were collected. *)
Theorem reports_order_independent (rows rows' : list metric)
    (Hperm : Permutation rows rows') (Hnd : NoDup (map sort_key rows)) :
  md_lines rows = md_lines rows' /\ csv_table rows = csv_table rows'.
Proof.
  unfold md_lines, csv_table. now rewrite (rows_sorted_perm_distinct rows rows' Hperm Hnd).
Qed.

(** X16. Sorting is idempotent: the renderers give the same report on a
    list of records and on that list already sorted. *)
Theorem reports_of_sorted_rows (rows : list metric) :
  rows_sorted (rows_sorted rows) = rows_sorted rows /\
  md_lines (rows_sorted rows) = md_lines rows /\
  csv_table (rows_sorted rows) = csv_table rows.
Proof.
  assert (H : rows_sorted (rows_sorted rows) = rows_sorted rows).
  { symmetry. apply rows_sorted_unique; [apply rows_sorted_strongly | reflexivity]. }
  unfold md_lines, csv_table. now rewrite H.
Qed.

(** X13. The CSV table has the header and one row per record, and every row
    has as many cells as the header has names. *)
Theorem csv_table_shape (rows : list metric) :
  List.length (csv_table rows) = S (List.length rows) /\
  Forall (fun row => List.length row = List.length csv_hdr) (csv_table rows).
Proof.
  unfold csv_table. rewrite csv_loop_map. cbn [app List.length]. split.
  - now rewrite length_map, rows_sorted_length.
  - constructor; [now rewrite length_map|].
    apply Forall_forall. intros row Hin. apply in_map_iff in Hin.
    destruct Hin as (r & <- & _). reflexivity.
Qed.

Lemma mapM_length {A B : Type} (f : A -> result B) (l : list A) (bs : list B) :
  mapM f l = Ok bs -> List.length bs = List.length l.
Proof.
  intros H. apply mapM_Forall2 in H. symmetry. now apply (Forall2_length H).
Qed.

(** X14. When the Markdown rows render, the file has the header line, the
    separator line and one line per record, and every data row is made of as
    many cells as the header. *)
Theorem md_lines_shape (rows : list metric) (lines : list string)
    (H : md_lines rows = Ok lines) :
  List.length lines = (2 + List.length rows)%nat /\
  (forall r cells, md_rec r = Ok cells -> List.length cells = List.length md_hdr).
Proof.
  split.
  - unfold md_lines in H. bind_inv H. rewrite md_loop_mapM in H. bind_inv H.
    injection H as <-. cbn [app List.length]. apply mapM_length in E1.
    now rewrite E1, rows_sorted_length.
  - intros r cells Hc. unfold md_rec in Hc. bind_inv Hc. injection Hc as <-. reflexivity.
Qed.

(** X17. The CSV row keeps every field of a metric record: two records with
    the same row are the same record. *)
Theorem csv_row_injective (r1 r2 : metric) (H : csv_row r1 = csv_row r2) : r1 = r2.
Proof.
  destruct r1, r2. cbn in H. injection H as -> -> -> -> -> -> -> -> -> -> -> -> -> -> -> -> -> ->.
  reflexivity.
Qed.

Section MainMore.
Context {T : TextNumbers}.

(** X11. [main] is all or nothing on the records: when one collected record
    fails to derive, [main] ends with that exception, having printed the
    loader's warnings only, and no file is written. *)
Theorem main_derive_failure (a : args) (w : world) (warns : list event) (rows : list json)
    (e : exn)
    (Hload : load_rows w (inp a) = (warns, Ok rows))
    (Hfail : mapM derive rows = Raise e) :
  main a w = (warns, Raise e) /\ files_written (events (main a w)) = [].
Proof.
  assert (Hmain : main a w = (warns, Raise e)).
  { unfold main. rewrite Hload. cbn [io_bind].
    destruct rows as [|row rows]; [discriminate Hfail|].
    rewrite Hfail. cbn. now rewrite app_nil_r. }
  split; [exact Hmain|]. rewrite Hmain. cbn [events fst].
  rewrite load_rows_eq in Hload. injection Hload as <- _. apply files_written_warnings.
Qed.


End MainMore.

(* ================================================================== *)
(** * The further properties at sample inputs *)

Lemma derive_reads_ten_keys_witness :
  (forall k, In k derive_keys ->
     dict_lookup k (("Note", JStr "rerun") :: partial_fields) = dict_lookup k partial_fields) /\
  @derive no_text (JDict (("Note", JStr "rerun") :: partial_fields))
  = @derive no_text (JDict partial_fields).
Proof.
  assert (H : forall k, In k derive_keys ->
     dict_lookup k (("Note", JStr "rerun") :: partial_fields) = dict_lookup k partial_fields).
  { intros k Hk. unfold derive_keys in Hk. cbn [In] in Hk.
    repeat destruct Hk as [Hk|Hk]; try contradiction; subst k; reflexivity. }
  split; [exact H | exact (@derive_reads_ten_keys no_text _ _ H)].
Defined.

Lemma list_verdict_not_ok : ~ group_ok list_verdict_fields "Verdict".
Proof. intros [H|[d H]]; discriminate H. Qed.

Lemma derive_group_not_mapping_witness :
  In "Verdict" groups /\
  ~ group_ok list_verdict_fields "Verdict" /\
  exists e, @derive no_text (JDict list_verdict_fields) = Raise e /\
            ("Verdict" <> "SizesB" -> e = AttributeError).
Proof.
  assert (Hin : In "Verdict" groups) by (unfold groups; cbn [In]; auto).
  split; [exact Hin | split; [exact list_verdict_not_ok|]].
  exact (@derive_group_not_mapping no_text _ _ Hin list_verdict_not_ok).
Defined.

Lemma derive_size_partition_witness :
  @derive no_text (JDict example_fields) = Ok example_metric /\
  exists rest,
    @entries_sum no_text other_key (group example_fields "SizesB") rest /\
    size_total_bytes example_metric
    = size_fpar_total example_metric + size_witness_total example_metric + rest.
Proof.
  split; [exact derive_example_row|].
  exact (@derive_size_partition no_text _ _ derive_example_row).
Defined.

Lemma example_sizes_nonneg :
  forall k v z, In (k, v) (group example_fields "SizesB") -> @py_int no_text v = Ok z -> 0 <= z.
Proof.
  intros k v z Hin Hz. cbn in Hin.
  repeat destruct Hin as [Hin|Hin]; try contradiction;
    injection Hin as <- <-; cbn in Hz; injection Hz as <-; lia.
Qed.

Lemma derive_size_bounds_witness :
  @derive no_text (JDict example_fields) = Ok example_metric /\
  (forall k v z, In (k, v) (group example_fields "SizesB") ->
                 @py_int no_text v = Ok z -> 0 <= z) /\
  size_fpar_core example_metric + size_fpar_norm example_metric
  <= size_fpar_total example_metric.
Proof.
  split; [exact derive_example_row | split; [exact example_sizes_nonneg|]].
  exact (proj1 (proj2 (proj2 (@derive_size_bounds no_text _ _ derive_example_row
                                example_sizes_nonneg)))).
Defined.

Lemma derive_ok_all_iff_witness :
  @derive no_text (JDict example_fields) = Ok example_metric /\
  (ok_all example_metric = true <->
   (forall key field, In (key, field) verdicts ->
      exists v, dict_lookup key (group example_fields "Verdict") = Some v /\
                py_bool v = true)).
Proof.
  split; [exact derive_example_row|].
  exact (@derive_ok_all_iff no_text _ _ derive_example_row).
Defined.

Lemma derive_total_of_int_timings_witness :
  @derive no_text (JDict example_fields) = Ok example_metric /\
  dict_lookup "__total__" (group example_fields "TimingsUS") = None /\
  dict_values (group example_fields "TimingsUS") = map JInt [2000; 500] /\
  exists f, float_of_int (fold_right Z.add 0 [2000; 500]) = Ok f /\
            t_total_ms example_metric = fdiv f f1000.
Proof.
  assert (Hnone : dict_lookup "__total__" (group example_fields "TimingsUS") = None)
    by reflexivity.
  assert (Hints : dict_values (group example_fields "TimingsUS") = map JInt [2000; 500])
    by reflexivity.
  split; [exact derive_example_row | split; [exact Hnone | split; [exact Hints|]]].
  exact (@derive_total_of_int_timings no_text _ _ _ derive_example_row Hnone Hints).
Defined.

Lemma load_rows_listing_order_witness :
  (forall path, read_json small_world path = read_json small_world_reversed path) /\
  Permutation (glob small_world (os_path_join "out" "*.json"))
              (glob small_world_reversed (os_path_join "out" "*.json")) /\
  load_rows small_world "out" = load_rows small_world_reversed "out".
Proof.
  assert (Hread : forall path,
             read_json small_world path = read_json small_world_reversed path)
    by (intros path; reflexivity).
  assert (Hglob : Permutation (glob small_world (os_path_join "out" "*.json"))
                              (glob small_world_reversed (os_path_join "out" "*.json")))
    by (apply Permutation_rev).
  split; [exact Hread | split; [exact Hglob|]].
  exact (load_rows_listing_order small_world small_world_reversed "out" Hread Hglob).
Defined.

Lemma bad_world_load :
  load_rows bad_world (inp default_args) = ([], Ok [bad_record]).
Proof. reflexivity. Qed.

Lemma bad_record_fails : @mapM _ _ (@derive no_text) [bad_record] = Raise TypeError.
Proof. reflexivity. Qed.

Lemma main_derive_failure_witness :
  load_rows bad_world (inp default_args) = ([], Ok [bad_record]) /\
  @mapM _ _ (@derive no_text) [bad_record] = Raise TypeError /\
  @main no_text default_args bad_world = ([], Raise TypeError) /\
  files_written (events (@main no_text default_args bad_world)) = [].
Proof.
  split; [exact bad_world_load | split; [exact bad_record_fails|]].
  exact (@main_derive_failure no_text default_args bad_world [] [bad_record] TypeError
           bad_world_load bad_record_fails).
Defined.

Lemma md_lines_example : exists lines, md_lines [example_metric; zero_metric] = Ok lines.
Proof. eexists. vm_compute. reflexivity. Qed.

Lemma md_lines_shape_witness :
  exists lines,
    md_lines [example_metric; zero_metric] = Ok lines /\
    List.length lines = 4%nat.
Proof.
  destruct md_lines_example as [lines H]. exists lines.
  split; [exact H | exact (proj1 (md_lines_shape _ lines H))].
Defined.

Lemma two_rows_distinct : NoDup (map sort_key [example_metric; zero_metric]).
Proof.
  constructor; [|constructor; [intros []|constructor]].
  intros [H|[]]. discriminate H.
Qed.

Lemma reports_order_independent_witness :
  Permutation [example_metric; zero_metric] [zero_metric; example_metric] /\
  NoDup (map sort_key [example_metric; zero_metric]) /\
  md_lines [example_metric; zero_metric] = md_lines [zero_metric; example_metric] /\
  csv_table [example_metric; zero_metric] = csv_table [zero_metric; example_metric].
Proof.
  assert (Hperm : Permutation [example_metric; zero_metric] [zero_metric; example_metric])
    by apply perm_swap.
  split; [exact Hperm | split; [exact two_rows_distinct|]].
  exact (reports_order_independent _ _ Hperm two_rows_distinct).
Defined.

Lemma csv_row_injective_witness :
  csv_row example_metric = csv_row example_metric /\ example_metric = example_metric.
Proof.
  split; [reflexivity | exact (csv_row_injective _ _ eq_refl)].
Defined.

Lemma fmt_bytes_unit_witness :
  fmt_bytes (NInt 5000) = Ok (Some "0.0 KiB") /\
  exists t u,
    "0.0 KiB" = t ++ " " ++ u /\ In u units /\ (u = "B" <-> 5000 < 1024) /\
    exists k q,
      nth_error units k = Some u /\
      div_1024 (if String.eqb u "B" then 0 else S k) (NInt 5000) = Ok q /\
      num_format_f (if String.eqb u "B" then 0 else 1) q = Ok t.
Proof.
  assert (H : fmt_bytes (NInt 5000) = Ok (Some "0.0 KiB")) by (vm_compute; reflexivity).
  split; [exact H | exact (fmt_bytes_unit 5000 "0.0 KiB" H)].
Defined.

Lemma fmt_bytes_below_1024_witness :
  0 <= 512 < 1024 /\ fmt_bytes (NInt 512) = Ok (Some "512 B").
Proof.
  assert (H : 0 <= 512 < 1024) by lia.
  split; [exact H | exact (fmt_bytes_below_1024 512 H)].
Defined.
